(** * Digest pipeline of [app.py]: a shallow embedding and its properties

    The Flask application [app.py] answers [POST /daily_digest]: it builds a
    search expression, asks the video search service for candidates, and for
    each candidate downloads the audio, transcribes it and summarises the
    transcript.  This file embeds the functions of [app.py] as Rocq functions
    over an explicit world (scratch directory and the calls made to the
    external services) and proves the properties of the pipeline. *)

From Stdlib Require Import ZArith String Ascii List Lia Bool DecimalString.
From stdpp Require Import base option list strings gmap.

Local Open Scope string_scope.
Local Open Scope Z_scope.

(** ** Python values and strings *)

Module Py.

(** A value as [request.get_json()] hands it to the handler.  A JSON number
    is kept as an integer: the handler only tests numbers for truthiness and
    for their type.  A parsed object has one binding per key; [dict_get]
    reads the first binding of the key.  A [str] is a [string], one
    character per code point (code points below 256). *)
#[local] Unset Elimination Schemes.
Inductive json : Type :=
| JNull
| JBool (b : bool)
| JNum (n : Z)
| JStr (s : string)
| JList (l : list json)
| JDict (kv : list (string * json)).
#[local] Set Elimination Schemes.

(** [bool(v)]: what [not v] tests. *)
Definition truthy (v : json) : bool :=
  match v with
  | JNull => false
  | JBool b => b
  | JNum n => negb (n =? 0)
  | JStr s => negb (String.eqb s "")
  | JList l => match l with [] => false | _ :: _ => true end
  | JDict kv => match kv with [] => false | _ :: _ => true end
  end.

Fixpoint dict_get (k : string) (kv : list (string * json)) : option json :=
  match kv with
  | [] => None
  | (k', v) :: rest => if String.eqb k k' then Some v else dict_get k rest
  end.

(** [v.get(k, default)]: only a dict has the method; on any other value the
    attribute lookup raises [AttributeError]. *)
Definition get (v : json) (k : string) (dflt : json) : string + json :=
  match v with
  | JDict kv => inr (default dflt (dict_get k kv))
  | _ => inl "object has no attribute 'get'"
  end.

Definition dquote : ascii := "034"%char.

(** [sep.join(l)] *)
Fixpoint join (sep : string) (l : list string) : string :=
  match l with
  | [] => ""
  | [x] => x
  | x :: rest => x +:+ sep +:+ join sep rest
  end.

(** [s[:n]] *)
Definition take_str (n : nat) (s : string) : string := substring 0 n s.

(** [needle in s] *)
Fixpoint contains (needle s : string) : bool :=
  String.prefix needle s
  || match s with
     | EmptyString => false
     | String _ s' => contains needle s'
     end.

(** [s.endswith(suffix)] *)
Definition endswith (s suffix : string) : bool :=
  let n := String.length s in
  let m := String.length suffix in
  (m <=? n)%nat && String.eqb (substring (n - m) m s) suffix.

(** Characters that [str.strip()] removes, for code points below 256. *)
Definition is_space (c : ascii) : bool :=
  let n := nat_of_ascii c in
  ((9 <=? n) && (n <=? 13) || (28 <=? n) && (n <=? 32)
   || (n =? 133) || (n =? 160))%nat.

Fixpoint lstrip (s : string) : string :=
  match s with
  | EmptyString => EmptyString
  | String c s' => if is_space c then lstrip s' else s
  end.

(** [rstrip] drops a character when it is a space and everything after it
    was dropped. *)
Fixpoint rstrip (s : string) : string :=
  match s with
  | EmptyString => EmptyString
  | String c s' =>
      match rstrip s' with
      | EmptyString => if is_space c then EmptyString else String c EmptyString
      | r => String c r
      end
  end.

Definition strip (s : string) : string := rstrip (lstrip s).

End Py.

(** ** The world outside the process *)

(** A raw item of the search response: [item["id"].get("videoId")] and the
    three fields read from [item["snippet"]]. *)
Record SearchResult : Type := mkSearchResult {
  videoId : option string;
  snippet_title : string;
  snippet_channelTitle : string;
  snippet_publishedAt : string
}.

(** The dict appended to [podcasts]. *)
Record CandidateItem : Type := mkCandidate {
  c_title : string;
  c_channel : string;
  c_published_at : string;
  c_video_url : string
}.

(** What the transcription client returns: with [response_format="text"] a
    plain string, otherwise an object with a [text] attribute, or an object
    without one (then [str(transcript)] is taken). *)
Inductive Transcript : Type :=
| PlainText (s : string)
| StructuredText (text : string)
| OtherObject (str_of : string).

(** The scratch directory (file name to size in bytes) and the calls made so
    far to the external services, oldest first. *)
Record World : Type := mkWorld {
  files : gmap string Z;
  uuid_calls : nat;
  searches : list string;
  downloads : list string;
  transcriptions : list string;
  generations : list string
}.

(** The environment variables and the external services.  A service answers
    with a result or raises ([inl] carries [str(e)]); its answer may depend on
    the world at the time of the call. *)
Record Env : Type := mkEnv {
  OPENAI_API_KEY : option string;
  YOUTUBE_API_KEY : option string;
  (* [str(v)] for a value [v] that is not a string *)
  py_str : Py.json -> string;
  (* [str(uuid.uuid4())] *)
  uuid4 : World -> string;
  (* [build(...)], [search().list(q=..., maxResults=...)] and [execute()] *)
  youtube_search : World -> string -> Z -> string + list SearchResult;
  (* [ydl.extract_info(url, download=True)] with the given [outtmpl], then
     [ydl.prepare_filename(info)]: the directory afterwards, and the file
     name or the error *)
  ydl_download : World -> string -> string -> gmap string Z * (string + string);
  (* [open(file_path, "rb")] and [client.audio.transcriptions.create] *)
  whisper : World -> string -> string + Transcript;
  (* [client.chat.completions.create(...)] and
     [response.choices[0].message.content] ([None] when it has no content) *)
  chat_completion : World -> string -> string + option string;
  (* whether [os.remove(path)] succeeds *)
  os_remove : World -> string -> bool
}.

(** [bool(KEY)] for an environment variable: unset and empty are falsy. *)
Definition key_available (k : option string) : bool :=
  match k with
  | Some s => negb (String.eqb s "")
  | None => false
  end.

Definition TOP_PLAYERS : list string :=
  ["Maersk"; "CMA CGM"; "Hapag-Lloyd"; "MSC"; "ONE"].

Definition nl : string := String "010"%char EmptyString.

Definition decimal (n : Z) : string :=
  DecimalString.NilZero.string_of_int (Z.to_int n).

(** [f"{file_size/1024/1024:.1f}"].  Below [2^53] bytes both divisions are
    exact in binary floating point, and the format rounds the exact quotient
    to one decimal, ties to even. *)
Definition fmt_mb (file_size : Z) : string :=
  let q := (file_size * 10) / 1048576 in
  let r := (file_size * 10) mod 1048576 in
  let tenths :=
    if 2 * r <? 1048576 then q
    else if 1048576 <? 2 * r then q + 1
    else if Z.even q then q else q + 1 in
  decimal (tenths / 10) +:+ "." +:+ decimal (tenths mod 10).

(** ** [get_last_month_youtube_podcasts] *)

(** The loop over [response.get("items", [])]. *)
Fixpoint to_podcasts (items : list SearchResult) : list CandidateItem :=
  match items with
  | [] => []
  | item :: rest =>
      match videoId item with
      | Some video_id =>
          if String.eqb video_id "" then to_podcasts rest
          else mkCandidate (snippet_title item) (snippet_channelTitle item)
                 (snippet_publishedAt item)
                 ("https://www.youtube.com/watch?v=" +:+ video_id)
               :: to_podcasts rest
      | None => to_podcasts rest
      end
  end.

Definition log_search (q : string) (w : World) : World :=
  mkWorld (files w) (uuid_calls w) (searches w ++ [q]) (downloads w)
    (transcriptions w) (generations w).

Definition get_last_month_youtube_podcasts (env : Env)
    (search_keywords : string) (max_results : Z) (w : World)
  : list CandidateItem * World :=
  if negb (key_available (YOUTUBE_API_KEY env)) then ([], w)
  else
    match youtube_search env w search_keywords max_results with
    | inr items => (to_podcasts items, log_search search_keywords w)
    | inl _ => ([], log_search search_keywords w)
    end.

(** ** [download_audio] *)

Definition log_download (url : string) (fs : gmap string Z) (w : World) : World :=
  mkWorld fs (S (uuid_calls w)) (searches w) (downloads w ++ [url])
    (transcriptions w) (generations w).

Definition audio_ext (file : string) : bool :=
  Py.endswith file ".m4a" || Py.endswith file ".mp3" || Py.endswith file ".webm".

Definition download_audio (env : Env) (video_url : string) (w : World)
  : (string + string) * World :=
  let unique_id := Py.take_str 8 (uuid4 env w) in
  let output_template := "audio_" +:+ unique_id +:+ ".%(ext)s" in
  let '(fs, outcome) := ydl_download env w video_url output_template in
  let w' := log_download video_url fs w in
  match outcome with
  | inl e => (inl e, w')
  | inr filename =>
      match fs !! filename with
      | Some _ => (inr filename, w')
      | None =>
          match List.find (fun file => Py.contains unique_id file && audio_ext file)
                  (map fst (map_to_list fs)) with
          | Some file => (inr file, w')
          | None => (inl "Downloaded file not found", w')
          end
      end
  end.

(** ** [transcribe_audio] *)

Definition transcript_text (t : Transcript) : string :=
  match t with
  | PlainText s => s
  | StructuredText text => text
  | OtherObject s => s
  end.

Definition log_transcription (path : string) (w : World) : World :=
  mkWorld (files w) (uuid_calls w) (searches w) (downloads w)
    (transcriptions w ++ [path]) (generations w).

(** The [finally] block: remove the file when it is there; a failing
    [os.remove] is only reported. *)
Definition cleanup (env : Env) (file_path : string) (w : World) : World :=
  match files w !! file_path with
  | Some _ =>
      if os_remove env w file_path
      then mkWorld (delete file_path (files w)) (uuid_calls w) (searches w)
             (downloads w) (transcriptions w) (generations w)
      else w
  | None => w
  end.

Definition min_size : Z := 1000.
Definition max_size : Z := 25 * 1024 * 1024.

Definition too_small_msg : string := "Audio file too small - likely corrupted".
Definition too_large_msg (file_size : Z) : string :=
  "File too large: " +:+ fmt_mb file_size +:+ "MB (max 25MB)".

(** The two size tests, which come before the [try]. *)
Definition size_gate (file_size : Z) : option string :=
  if file_size <? min_size then Some too_small_msg
  else if max_size <? file_size then Some (too_large_msg file_size)
  else None.

Definition transcribe_audio (env : Env) (file_path : string) (w : World)
  : (string + string) * World :=
  if negb (key_available (OPENAI_API_KEY env))
  then (inl "OpenAI API key not available", w)
  else
    match files w !! file_path with
    | None => (inl ("Audio file not found: " +:+ file_path), w)
    | Some file_size =>
        match size_gate file_size with
        | Some e => (inl e, w)
        | None =>
            let w1 := log_transcription file_path w in
            let result :=
              match whisper env w file_path with
              | inr transcript => inr (transcript_text transcript)
              | inl e => inl e
              end in
            (result, cleanup env file_path w1)
        end
    end.

(** ** [summarize_text] *)

Definition no_key_summary : string :=
  "OpenAI API key not available for summarization".
Definition too_short_summary : string :=
  "Transcript too short to generate meaningful summary".
Definition empty_summary : string :=
  "Summary could not be generated - empty response".

(** The f-string of the prompt, line by line. *)
Definition prompt_of (text : string) : string :=
  nl +:+
  "    Summarize the following podcast transcript, focusing on key shipping industry insights:" +:+ nl +:+
  "    " +:+ nl +:+
  "    Key areas to highlight:" +:+ nl +:+
  "    - Global policy impacts and regulatory changes" +:+ nl +:+
  "    - Political issues affecting shipping" +:+ nl +:+
  "    - Technology advancements and innovations" +:+ nl +:+
  "    - Market trends and business developments" +:+ nl +:+
  "    - Mentions of major players: " +:+ Py.join ", " TOP_PLAYERS +:+ nl +:+
  "    " +:+ nl +:+
  "    Provide a concise summary with actionable insights in bullet points." +:+ nl +:+
  "    " +:+ nl +:+
  "    Transcript:" +:+ nl +:+
  "    " +:+ text +:+ nl +:+
  "    ".

Definition log_generation (prompt : string) (w : World) : World :=
  mkWorld (files w) (uuid_calls w) (searches w) (downloads w)
    (transcriptions w) (generations w ++ [prompt]).

Definition max_chars : nat := Z.to_nat 12000.
Definition min_chars : nat := 50.

Definition summarize_text (env : Env) (text : string) (w : World)
  : string * World :=
  if negb (key_available (OPENAI_API_KEY env)) then (no_key_summary, w)
  else if String.eqb text "" || (String.length (Py.strip text) <? min_chars)%nat
  then (too_short_summary, w)
  else
    let text :=
      if (max_chars <? String.length text)%nat
      then Py.take_str max_chars text +:+ "..."
      else text in
    let prompt := prompt_of text in
    let w' := log_generation prompt w in
    match chat_completion env w prompt with
    | inr None => (empty_summary, w')
    | inr (Some summary_text) =>
        if String.eqb summary_text "" || String.eqb (Py.strip summary_text) ""
        then (empty_summary, w')
        else (summary_text, w')
    | inl e => ("Summary generation failed: " +:+ e, w')
    end.

(** ** [daily_digest] *)

Record DigestEntry : Type := mkEntry {
  title : string;
  channel : string;
  published_at : string;
  video_url : string;
  summary : string;
  transcript_length : option nat;
  error : option string
}.

Definition success_entry (podcast : CandidateItem) (summary : string)
    (transcription : string) : DigestEntry :=
  mkEntry (c_title podcast) (c_channel podcast) (c_published_at podcast)
    (c_video_url podcast) summary (Some (String.length transcription)) None.

Definition failure_entry (podcast : CandidateItem) (error_msg : string)
  : DigestEntry :=
  mkEntry (c_title podcast) (c_channel podcast) (c_published_at podcast)
    (c_video_url podcast) ("Processing failed: " +:+ error_msg) None
    (Some error_msg).

(** The body of the [for] loop: the [try] block and its [except].  The
    boolean says whether [processed_count] is incremented. *)
Definition process_podcast (env : Env) (podcast : CandidateItem) (w : World)
  : DigestEntry * bool * World :=
  match download_audio env (c_video_url podcast) w with
  | (inl error_msg, w1) => (failure_entry podcast error_msg, false, w1)
  | (inr audio_path, w1) =>
      match transcribe_audio env audio_path w1 with
      | (inl error_msg, w2) => (failure_entry podcast error_msg, false, w2)
      | (inr transcription, w2) =>
          let '(summary, w3) := summarize_text env transcription w2 in
          (success_entry podcast summary transcription, true, w3)
      end
  end.

Definition max_videos_to_process : nat := 3.

(** The [for] loop over [podcasts], from the values of [processed_count] and
    [summaries] at its start. *)
Fixpoint process_loop (env : Env) (podcasts : list CandidateItem)
    (processed_count : nat) (summaries : list DigestEntry) (w : World)
  : list DigestEntry * nat * World :=
  match podcasts with
  | [] => (summaries, processed_count, w)
  | podcast :: rest =>
      if (max_videos_to_process <=? processed_count)%nat
      then (summaries, processed_count, w)
      else
        let '(entry, ok, w') := process_podcast env podcast w in
        process_loop env rest
          (if ok then S processed_count else processed_count)
          (summaries ++ [entry]) w'
  end.

(** [request.get_json()] raises (no JSON content type, malformed body) or
    returns the parsed value. *)
Inductive get_json_result : Type :=
| JsonRaises (e : string)
| JsonValue (data : Py.json).

Inductive Body : Type :=
| ErrorObject (msg : string)
| EntryArray (entries : list DigestEntry).

Record Response : Type := mkResponse { status : Z; body : Body }.

Definition preset : Py.json := Py.JList (map Py.JStr TOP_PLAYERS).

(** [f"{v}"] *)
Definition fmt (env : Env) (v : Py.json) : string :=
  match v with
  | Py.JStr s => s
  | _ => py_str env v
  end.

Definition quoted (s : string) : string :=
  String Py.dquote (s +:+ String Py.dquote EmptyString).

(** The expression assigned to [search_keywords]. *)
Definition search_keywords (env : Env) (category : Py.json)
    (companies_list : list Py.json) : string :=
  fmt env category +:+ " podcast OR interview OR news "
  +:+ Py.join " OR " (map (fun company => quoted (fmt env company)) companies_list).

(** The value of [companies_list] before the type test: [company], then
    [companies] when that is falsy, then a string wrapped in a list. *)
Definition companies_of (data : Py.json) : string + Py.json :=
  match Py.get data "company" preset with
  | inl e => inl e
  | inr companies_list =>
      match (if negb (Py.truthy companies_list)
             then Py.get data "companies" preset
             else inr companies_list) with
      | inl e => inl e
      | inr (Py.JStr s) => inr (Py.JList [Py.JStr s])
      | inr companies_list => inr companies_list
      end
  end.

Definition empty_array : Response := mkResponse 200 (EntryArray []).

Definition daily_digest (env : Env) (req : get_json_result) (w : World)
  : Response * World :=
  match req with
  | JsonRaises _ => (empty_array, w)
  | JsonValue data =>
      if negb (Py.truthy data)
      then (mkResponse 400 (ErrorObject "Missing JSON body"), w)
      else
        match Py.get data "category" (Py.JStr "shipping industry") with
        | inl _ => (empty_array, w)
        | inr category =>
            match companies_of data with
            | inl _ => (empty_array, w)
            | inr (Py.JList (company :: others)) =>
                let q := search_keywords env category (company :: others) in
                let '(podcasts, w1) :=
                  get_last_month_youtube_podcasts env q 5 w in
                match podcasts with
                | [] => (empty_array, w1)
                | _ :: _ =>
                    let '(summaries, _, w2) :=
                      process_loop env podcasts 0 [] w1 in
                    (mkResponse 200 (EntryArray summaries), w2)
                end
            | inr _ =>
                (mkResponse 400
                   (ErrorObject "company/companies must be a non-empty list or string"),
                 w)
            end
        end
  end.

(** ** [health_check] *)

Record Health : Type := mkHealth {
  h_status : string;
  openai_key_available : bool;
  youtube_key_available : bool
}.

(** The object passed to [jsonify]; the status of the response is 200. *)
Definition health_check (env : Env) : Z * Health :=
  (200, mkHealth "healthy" (key_available (OPENAI_API_KEY env))
          (key_available (YOUTUBE_API_KEY env))).

(** ** A concrete environment

    Used to run the pipeline on examples: the search returns [max_results]
    results, every download writes a file [audio_<id>.m4a] of the given
    size, and the other services answer or raise as the switches say. *)

Module Sample.

Definition long_text : string :=
  "Container rates fell again this week while carriers blanked more sailings.".

Definition result_of (n : nat) : SearchResult :=
  mkSearchResult (Some ("v" +:+ decimal (Z.of_nat n)))
    ("Episode " +:+ decimal (Z.of_nat n)) "Channel" "2024-01-01T00:00:00Z".

Definition sample_env (key : option string) (download_ok whisper_ok chat_ok : bool)
    (size : Z) : Env :=
  mkEnv key (Some "yt-key")
    (fun _ => "?")
    (fun w => decimal (Z.of_nat (uuid_calls w) + 10000000) +:+ "-0000-4000-8000-000000000000")
    (fun _ q max_results => inr (map result_of (seq 1 (Z.to_nat max_results))))
    (fun w url tmpl =>
       if download_ok
       then let name := Py.take_str 14 tmpl +:+ ".m4a" in
            (<[name := size]> (files w), inr name)
       else (files w, inl "ERROR: Video unavailable"))
    (fun _ _ => if whisper_ok then inr (PlainText long_text)
                else inl "Connection error.")
    (fun _ _ => if chat_ok then inr (Some "- Rates are falling.")
                else inl "Rate limit reached")
    (fun _ _ => true).

Definition w0 : World := mkWorld ∅ 0 [] [] [] [].

Definition five : list CandidateItem := to_podcasts (map result_of (seq 1 5)).

(** [n] copies of [s], one after the other. *)
Fixpoint copies (n : nat) (s : string) : string :=
  match n with
  | O => EmptyString
  | S n' => s +:+ copies n' s
  end.

Definition podcast1 : CandidateItem :=
  mkCandidate "Episode 1" "Channel" "2024-01-01T00:00:00Z"
    "https://www.youtube.com/watch?v=v1".

End Sample.

(** ** Notions used in the statements *)

(** The form the specification gives: ["e1" OR "e2" OR ... OR "en"]. *)
Fixpoint or_quoted (e : string) (es : list string) : string :=
  match es with
  | [] => quoted e
  | e' :: es' => quoted e +:+ " OR " +:+ or_quoted e' es'
  end.

(** The candidate an entry reports on. *)
Definition item_of (e : DigestEntry) : CandidateItem :=
  mkCandidate (title e) (channel e) (published_at e) (video_url e).

(** An entry without an [error] field. *)
Definition succeeded (e : DigestEntry) : bool :=
  match error e with
  | None => true
  | Some _ => false
  end.

(** The number of entries without an [error] field. *)
Definition successes (l : list DigestEntry) : nat :=
  length (List.filter succeeded l).

(** The entries of a response; an error object has none. *)
Definition entries_of (r : Response) : list DigestEntry :=
  match body r with
  | EntryArray entries => entries
  | ErrorObject _ => []
  end.

(** The url that [to_podcasts] builds for a video id. *)
Definition watch_url (video_id : string) : string :=
  "https://www.youtube.com/watch?v=" +:+ video_id.

(** The candidate that [to_podcasts] builds from a raw item with an id. *)
Definition candidate_of (item : SearchResult) (video_id : string)
  : CandidateItem :=
  mkCandidate (snippet_title item) (snippet_channelTitle item)
    (snippet_publishedAt item) (watch_url video_id).

(** A string is wrapped in a list. *)
Definition as_list (v : Py.json) : Py.json :=
  match v with
  | Py.JStr s => Py.JList [Py.JStr s]
  | _ => v
  end.

(** A non-empty list, the only value of [companies_list] that passes the
    type test of the handler. *)
Definition nonempty_list (v : Py.json) : bool :=
  match v with
  | Py.JList (_ :: _) => true
  | _ => false
  end.

(** * Properties *)

(** ** Strings *)

Lemma length_lstrip (s : string) :
  (String.length (Py.lstrip s) <= String.length s)%nat.
Proof.
  induction s as [|c s IH]; simpl; [lia|].
  destruct (Py.is_space c); simpl; lia.
Qed.

Lemma length_rstrip (s : string) :
  (String.length (Py.rstrip s) <= String.length s)%nat.
Proof.
  induction s as [|c s IH]; simpl; [lia|].
  destruct (Py.rstrip s) eqn:E.
  - destruct (Py.is_space c); simpl; lia.
  - simpl in *. lia.
Qed.

Lemma length_strip (s : string) :
  (String.length (Py.strip s) <= String.length s)%nat.
Proof.
  unfold Py.strip.
  pose proof (length_rstrip (Py.lstrip s)). pose proof (length_lstrip s). lia.
Qed.

(** ** The query builder *)

Lemma join_or_quoted (env : Env) (e : string) (es : list string) :
  Py.join " OR " (map (fun company => quoted (fmt env company)) (map Py.JStr (e :: es)))
  = or_quoted e es.
Proof.
  revert e. induction es as [|e' es IH]; intros e; [reflexivity|].
  change (quoted e +:+ " OR " +:+
          Py.join " OR " (map (fun company => quoted (fmt env company)) (map Py.JStr (e' :: es)))
          = quoted e +:+ " OR " +:+ or_quoted e' es).
  now rewrite IH.
Qed.

(** C8: for a topic string [t] and entities [e1 .. en] the query is
    [t podcast OR interview OR news "e1" OR ... OR "en"]; for the category
    [shipping] and the entities [A], [B] it is
    [shipping podcast OR interview OR news "A" OR "B"], which contains the
    topic, both quoted entities and the literal [ OR ] between them. *)
Theorem search_keywords_form (env : Env) (t e : string) (es : list string) :
  search_keywords env (Py.JStr t) (map Py.JStr (e :: es))
  = t +:+ " podcast OR interview OR news " +:+ or_quoted e es
  /\ (let q := String Py.dquote EmptyString in
      let r := search_keywords env (Py.JStr "shipping") [Py.JStr "A"; Py.JStr "B"] in
      r = "shipping podcast OR interview OR news " +:+ q +:+ "A" +:+ q
          +:+ " OR " +:+ q +:+ "B" +:+ q
      /\ Py.contains "shipping" r = true
      /\ Py.contains (q +:+ "A" +:+ q +:+ " OR " +:+ q +:+ "B" +:+ q) r = true).
Proof.
  split.
  - unfold search_keywords. now rewrite join_or_quoted.
  - repeat split; reflexivity.
Qed.

(** ** The size gate *)

Lemma size_gate_small (file_size : Z) :
  file_size < min_size -> size_gate file_size = Some too_small_msg.
Proof.
  intros H. unfold size_gate.
  destruct (Z.ltb_spec file_size min_size); [reflexivity | lia].
Qed.

Lemma size_gate_large (file_size : Z) :
  max_size < file_size -> size_gate file_size = Some (too_large_msg file_size).
Proof.
  intros H. unfold size_gate.
  assert (min_size < max_size) by (unfold min_size, max_size; lia).
  destruct (Z.ltb_spec file_size min_size); [lia|].
  destruct (Z.ltb_spec max_size file_size); [reflexivity | lia].
Qed.

Lemma size_gate_pass (file_size : Z) :
  min_size <= file_size <= max_size -> size_gate file_size = None.
Proof.
  intros H. unfold size_gate.
  destruct (Z.ltb_spec file_size min_size); [lia|].
  destruct (Z.ltb_spec max_size file_size); [lia | reflexivity].
Qed.

Lemma too_large_not_too_small (file_size : Z) :
  too_large_msg file_size <> too_small_msg.
Proof. unfold too_large_msg, too_small_msg. simpl. discriminate. Qed.

(** C7: with the credential set and a file of [file_size] bytes at
    [file_path], [transcribe_audio] raises the too-small error below 1000
    bytes, raises the too-large error (a different message) above
    25 * 1024 * 1024 bytes, both without calling the transcription service,
    and between the bounds sends the file to the service and returns what it
    answers. *)
Theorem transcribe_audio_size_gate (env : Env) (w : World)
    (file_path : string) (file_size : Z) :
  key_available (OPENAI_API_KEY env) = true ->
  files w !! file_path = Some file_size ->
  (file_size < 1000 ->
     transcribe_audio env file_path w
     = (inl "Audio file too small - likely corrupted", w))
  /\ (25 * 1024 * 1024 < file_size ->
        transcribe_audio env file_path w
        = (inl ("File too large: " +:+ fmt_mb file_size +:+ "MB (max 25MB)"), w)
        /\ "File too large: " +:+ fmt_mb file_size +:+ "MB (max 25MB)"
           <> "Audio file too small - likely corrupted")
  /\ (1000 <= file_size <= 25 * 1024 * 1024 ->
        transcriptions (snd (transcribe_audio env file_path w))
        = (transcriptions w ++ [file_path])%list
        /\ fst (transcribe_audio env file_path w)
           = match whisper env w file_path with
             | inr transcript => inr (transcript_text transcript)
             | inl e => inl e
             end).
Proof.
  intros Hkey Hfile. unfold transcribe_audio. rewrite Hkey, Hfile. simpl negb.
  repeat split.
  - intros H. now rewrite size_gate_small.
  - rewrite size_gate_large by exact H. reflexivity.
  - apply (too_large_not_too_small file_size).
  - rewrite size_gate_pass by exact H. simpl.
    unfold cleanup. simpl.
    rewrite Hfile. destruct (os_remove env _ file_path); reflexivity.
  - rewrite size_gate_pass by exact H. reflexivity.
Qed.

Lemma transcribe_audio_size_gate_witness :
  let env := Sample.sample_env (Some "sk-key") true true true 0 in
  let w size := mkWorld {[ "audio_1.m4a" := size ]} 1 [] [] [] [] in
  fst (transcribe_audio env "audio_1.m4a" (w 500))
  = inl "Audio file too small - likely corrupted"
  /\ fst (transcribe_audio env "audio_1.m4a" (w (26 * 1024 * 1024)))
     = inl "File too large: 26.0MB (max 25MB)"
  /\ fst (transcribe_audio env "audio_1.m4a" (w 1000))
     = inr Sample.long_text.
Proof.
  intros env w. split; [|split].
  - destruct (transcribe_audio_size_gate env (w 500) "audio_1.m4a" 500
                eq_refl eq_refl) as [H _].
    rewrite H by lia. reflexivity.
  - destruct (transcribe_audio_size_gate env (w (26 * 1024 * 1024))
                "audio_1.m4a" (26 * 1024 * 1024) eq_refl eq_refl)
      as (_ & H & _).
    destruct H as [H _]; [lia|]. rewrite H. reflexivity.
  - destruct (transcribe_audio_size_gate env (w 1000) "audio_1.m4a" 1000
                eq_refl eq_refl) as (_ & _ & H).
    destruct H as [_ H]; [lia|]. rewrite H. reflexivity.
Defined.

(** ** The summariser on short transcripts *)

Lemma short_test (text : string) :
  (String.length text < 50)%nat ->
  String.eqb text "" || (String.length (Py.strip text) <? min_chars)%nat = true.
Proof.
  intros H. apply orb_true_iff. right. apply Nat.ltb_lt.
  pose proof (length_strip text). unfold min_chars. lia.
Qed.

(** With the credential set, a transcript shorter than 50 characters gets
    the too-short placeholder and the world is left as it was. *)
Lemma summarize_text_short_key (env : Env) (text : string) (w : World) :
  key_available (OPENAI_API_KEY env) = true ->
  (String.length text < 50)%nat ->
  summarize_text env text w
  = ("Transcript too short to generate meaningful summary", w).
Proof.
  intros Hkey H. unfold summarize_text.
  rewrite Hkey, (short_test text H). reflexivity.
Qed.

(** [transcribe_audio] returns a transcript only when the credential is
    set: without it the first test raises. *)
Lemma transcribe_audio_needs_key (env : Env) (path text : string) (w : World) :
  (transcribe_audio env path w).1 = inr text ->
  key_available (OPENAI_API_KEY env) = true.
Proof.
  unfold transcribe_audio.
  destruct (key_available (OPENAI_API_KEY env)); [reflexivity|].
  simpl. discriminate.
Qed.

(** ** One item *)

Lemma download_audio_log (env : Env) (url : string) (w : World) :
  downloads (snd (download_audio env url w)) = (downloads w ++ [url])%list
  /\ generations (snd (download_audio env url w)) = generations w.
Proof.
  unfold download_audio.
  destruct (ydl_download env w url _) as [fs [e|filename]]; simpl; [auto|].
  destruct (fs !! filename); simpl; [auto|].
  destruct (List.find _ _); simpl; auto.
Qed.

Lemma cleanup_log (env : Env) (path : string) (w : World) :
  downloads (cleanup env path w) = downloads w
  /\ generations (cleanup env path w) = generations w.
Proof.
  unfold cleanup. destruct (files w !! path); [|auto].
  destruct (os_remove env w path); simpl; auto.
Qed.

Lemma transcribe_audio_log (env : Env) (path : string) (w : World) :
  downloads (snd (transcribe_audio env path w)) = downloads w
  /\ generations (snd (transcribe_audio env path w)) = generations w.
Proof.
  unfold transcribe_audio.
  destruct (key_available (OPENAI_API_KEY env)); simpl; [|auto].
  destruct (files w !! path) as [file_size|]; simpl; [|auto].
  destruct (size_gate file_size); [auto|].
  cbv beta iota zeta. unfold snd.
  destruct (cleanup_log env path (log_transcription path w)) as [-> ->].
  auto.
Qed.

Lemma summarize_text_log (env : Env) (text : string) (w : World) :
  downloads (snd (summarize_text env text w)) = downloads w.
Proof.
  unfold summarize_text.
  destruct (key_available (OPENAI_API_KEY env)); simpl; [|reflexivity].
  destruct (String.eqb text "" || _); simpl; [reflexivity|].
  destruct (chat_completion env w _) as [e|[summary_text|]]; simpl;
    try reflexivity.
  destruct (String.eqb summary_text "" || _); reflexivity.
Qed.

(** What one pass through the loop body does: one entry for the item, one
    download call, and the counter moves exactly when the entry has no
    error. *)
Lemma process_podcast_entry (env : Env) (podcast : CandidateItem) (w : World) :
  forall entry ok w', process_podcast env podcast w = (entry, ok, w') ->
  item_of entry = podcast
  /\ succeeded entry = ok
  /\ downloads w' = (downloads w ++ [c_video_url podcast])%list.
Proof.
  intros entry ok w'. unfold process_podcast.
  pose proof (download_audio_log env (c_video_url podcast) w) as [Hd _].
  destruct (download_audio env (c_video_url podcast) w) as [[e|audio_path] w1];
    simpl in Hd.
  - intros [= <- <- <-]. destruct podcast; auto.
  - pose proof (transcribe_audio_log env audio_path w1) as [Ht _].
    destruct (transcribe_audio env audio_path w1) as [[e|transcription] w2];
      simpl in Ht.
    + intros [= <- <- <-]. rewrite Ht, Hd. destruct podcast; auto.
    + pose proof (summarize_text_log env transcription w2) as Hs.
      destruct (summarize_text env transcription w2) as [summary w3];
        simpl in Hs.
      intros [= <- <- <-]. rewrite Hs, Ht, Hd. destruct podcast; auto.
Qed.

(** C9: a transcript shorter than 50 characters gets the fixed placeholder
    and the generation service is not called.  The summariser, called with
    the credential set as the pipeline calls it, returns the placeholder and
    leaves the world unchanged; and for every item whose download and
    transcription succeed with such a transcript, the entry has the
    placeholder as its summary, the length of the transcript and no
    [error] field, and no prompt was sent while the item was processed. *)
Theorem short_transcript_gets_placeholder (env : Env) :
  (forall (text : string) (w : World),
     key_available (OPENAI_API_KEY env) = true ->
     (String.length text < 50)%nat ->
     summarize_text env text w
     = ("Transcript too short to generate meaningful summary", w))
  /\ (forall (podcast : CandidateItem) (w : World)
             (audio_path transcription : string),
        (download_audio env (c_video_url podcast) w).1 = inr audio_path ->
        (transcribe_audio env audio_path
           (download_audio env (c_video_url podcast) w).2).1
        = inr transcription ->
        (String.length transcription < 50)%nat ->
        let r := process_podcast env podcast w in
        summary r.1.1 = "Transcript too short to generate meaningful summary"
        /\ transcript_length r.1.1 = Some (String.length transcription)
        /\ error r.1.1 = None
        /\ generations r.2 = generations w).
Proof.
  split; [apply summarize_text_short_key|].
  intros podcast w audio_path transcription Hd Ht Hshort r. subst r.
  unfold process_podcast.
  pose proof (download_audio_log env (c_video_url podcast) w) as [_ Hdg].
  destruct (download_audio env (c_video_url podcast) w) as [[e|p] w1];
    simpl in Hd, Ht, Hdg; [discriminate Hd|].
  injection Hd as ->.
  pose proof (transcribe_audio_needs_key env audio_path transcription w1 Ht)
    as Hkey.
  pose proof (transcribe_audio_log env audio_path w1) as [_ Htg].
  destruct (transcribe_audio env audio_path w1) as [[e|t] w2];
    simpl in Ht, Htg; [discriminate Ht|].
  injection Ht as ->.
  rewrite (summarize_text_short_key env transcription w2 Hkey Hshort).
  simpl. rewrite Htg, Hdg. repeat split.
Qed.

Lemma short_transcript_gets_placeholder_witness :
  let env :=
    mkEnv (Some "sk-key") (Some "yt-key") (fun _ => "?") (fun _ => "1f0c2a9e-77")
      (fun _ _ _ => inr [])
      (fun w _ _ => (<[ "audio_1f0c2a9e.m4a" := 4096 ]> (files w),
                     inr "audio_1f0c2a9e.m4a"))
      (fun _ _ => inr (PlainText "Thanks for watching!"))
      (fun _ _ => inr (Some "- A summary."))
      (fun _ _ => true) in
  let r := process_podcast env Sample.podcast1 Sample.w0 in
  summary r.1.1 = "Transcript too short to generate meaningful summary"
  /\ generations r.2 = [].
Proof.
  intros env r.
  destruct (short_transcript_gets_placeholder env) as [_ H].
  destruct (H Sample.podcast1 Sample.w0 "audio_1f0c2a9e.m4a"
              "Thanks for watching!" eq_refl eq_refl)
    as (Hsum & _ & _ & Hgen); [simpl; lia|].
  split; [exact Hsum | exact Hgen].
Defined.

(** ** The loop *)

Lemma successes_cons (e : DigestEntry) (l : list DigestEntry) :
  successes (e :: l) = ((if succeeded e then 1 else 0) + successes l)%nat.
Proof. unfold successes. simpl. destruct (succeeded e); reflexivity. Qed.

Lemma successes_app (a b : list DigestEntry) :
  successes (a ++ b) = (successes a + successes b)%nat.
Proof.
  unfold successes. rewrite List.filter_app. apply length_app.
Qed.

Lemma process_loop_cons (env : Env) (podcast : CandidateItem)
    (rest : list CandidateItem) (c : nat) (acc : list DigestEntry) (w : World) :
  process_loop env (podcast :: rest) c acc w
  = if (max_videos_to_process <=? c)%nat then (acc, c, w)
    else let '(entry, ok, w') := process_podcast env podcast w in
         process_loop env rest (if ok then S c else c) (acc ++ [entry]) w'.
Proof. reflexivity. Qed.

(** The loop from any value of the counter: the entries it adds report on a
    prefix of the candidates, one entry and one download call each; the
    counter grows by the number of entries without error; every item was
    started with the counter below the cap; and when the counter ends below
    the cap every candidate was attempted. *)
Lemma process_loop_inv (env : Env) (podcasts : list CandidateItem) :
  forall (processed_count : nat) (summaries : list DigestEntry) (w : World)
         (summaries' : list DigestEntry) (processed_count' : nat) (w' : World),
  process_loop env podcasts processed_count summaries w
  = (summaries', processed_count', w') ->
  exists new rest,
    summaries' = (summaries ++ new)%list
    /\ podcasts = (map item_of new ++ rest)%list
    /\ processed_count' = (processed_count + successes new)%nat
    /\ downloads w' = (downloads w ++ map video_url new)%list
    /\ ((processed_count' < max_videos_to_process)%nat -> rest = [])
    /\ (forall a e b, new = (a ++ e :: b)%list ->
          (processed_count + successes a < max_videos_to_process)%nat).
Proof.
  induction podcasts as [|podcast podcasts IH];
    intros c acc w acc' c' w' Hrun.
  - injection Hrun as <- <- <-. exists [], [].
    rewrite !app_nil_r. unfold successes. simpl.
    repeat split; auto with arith.
    intros a e b H. destruct a; discriminate H.
  - rewrite process_loop_cons in Hrun.
    destruct (Nat.leb_spec max_videos_to_process c) as [Hcap|Hcap].
    + injection Hrun as <- <- <-. exists [], (podcast :: podcasts).
      rewrite !app_nil_r. unfold successes. simpl.
      repeat split; auto with arith.
      * intros H. lia.
      * intros a e b H. destruct a; discriminate H.
    + destruct (process_podcast env podcast w) as [[entry ok] w1] eqn:Hitem.
      apply process_podcast_entry in Hitem as (Hi & Hs & Hd).
      apply IH in Hrun as (new & rest & -> & -> & -> & Hd' & Hrest & Hstart).
      exists (entry :: new), rest.
      rewrite successes_cons, Hs.
      repeat split.
      * now rewrite <- app_assoc.
      * simpl. now rewrite Hi.
      * destruct ok; lia.
      * rewrite Hd', Hd. simpl. rewrite <- app_assoc.
        rewrite <- Hi. reflexivity.
      * intros H. apply Hrest. destruct ok; lia.
      * intros a e b H. destruct a as [|e0 a].
        -- unfold successes. simpl. lia.
        -- injection H as <- ->. rewrite successes_cons, Hs.
           specialize (Hstart a e b eq_refl). destruct ok; lia.
Qed.

Lemma process_loop_run (env : Env) (podcasts : list CandidateItem) (w : World)
    (summaries : list DigestEntry) (processed_count : nat) (w' : World) :
  process_loop env podcasts 0 [] w = (summaries, processed_count, w') ->
  exists rest,
    podcasts = (map item_of summaries ++ rest)%list
    /\ processed_count = successes summaries
    /\ downloads w' = (downloads w ++ map video_url summaries)%list
    /\ ((processed_count < max_videos_to_process)%nat -> rest = [])
    /\ (forall a e b, summaries = (a ++ e :: b)%list ->
          (successes a < max_videos_to_process)%nat).
Proof.
  intros Hrun.
  apply process_loop_inv in Hrun
    as (new & rest & -> & -> & -> & Hd & Hrest & Hstart).
  exists rest. simpl. auto.
Qed.

Lemma successes_le_cap (l : list DigestEntry) :
  (forall a e b, l = (a ++ e :: b)%list ->
     (successes a < max_videos_to_process)%nat) ->
  (successes l <= max_videos_to_process)%nat.
Proof.
  intros H. destruct l as [|e l _] using rev_ind.
  - unfold successes, max_videos_to_process. simpl. lia.
  - specialize (H l e [] eq_refl).
    rewrite successes_app, successes_cons.
    unfold successes at 2. simpl. destruct (succeeded e); lia.
Qed.

(** C1: in the loop of [daily_digest], started with the counter at 0 and no
    entries, the final [processed_count] is the number of entries without
    error and is at most 3; every item was started while fewer than 3
    earlier items had succeeded, so when the first three entries are
    successes there is no fourth; and while fewer than 3 items have
    succeeded the loop goes on, so that it then attempts every candidate
    retrieved, however many there are. *)
Theorem process_loop_cap (env : Env) (podcasts : list CandidateItem) (w : World)
    (summaries : list DigestEntry) (processed_count : nat) (w' : World) :
  process_loop env podcasts 0 [] w = (summaries, processed_count, w') ->
  processed_count = successes summaries
  /\ (processed_count <= 3)%nat
  /\ (forall a e b, summaries = (a ++ e :: b)%list -> (successes a < 3)%nat)
  /\ (forall e1 e2 e3 rest,
        summaries = e1 :: e2 :: e3 :: rest ->
        succeeded e1 = true -> succeeded e2 = true -> succeeded e3 = true ->
        rest = [])
  /\ ((successes summaries < 3)%nat ->
        map item_of summaries = podcasts
        /\ length (downloads w') = (length (downloads w) + length podcasts)%nat).
Proof.
  intros Hrun.
  apply process_loop_run in Hrun as (rest & Hp & Hc & Hd & Hrest & Hstart).
  split; [exact Hc|]. split; [|split; [exact Hstart|split]].
  - rewrite Hc. now apply successes_le_cap.
  - intros e1 e2 e3 more -> H1 H2 H3.
    destruct more as [|e4 more]; [reflexivity|].
    specialize (Hstart [e1; e2; e3] e4 more eq_refl).
    rewrite !successes_cons, H1, H2, H3 in Hstart.
    unfold max_videos_to_process in Hstart. lia.
  - intros Hlt. rewrite <- Hc in Hlt. rewrite (Hrest Hlt), app_nil_r in Hp.
    split; [now rewrite Hp|].
    rewrite Hd, length_app, Hp, !length_map. reflexivity.
Qed.

Lemma process_loop_cap_witness :
  length (process_loop (Sample.sample_env (Some "sk-key") true true true 5000)
            Sample.five 0 [] Sample.w0).1.1 = 3%nat
  /\ length (process_loop (Sample.sample_env (Some "sk-key") false true true 5000)
               Sample.five 0 [] Sample.w0).1.1 = 5%nat.
Proof.
  split.
  - destruct (process_loop _ Sample.five 0 [] Sample.w0)
      as [[summaries processed_count] w'] eqn:E.
    destruct (process_loop_cap _ _ _ _ _ _ E) as (_ & _ & _ & H & _).
    destruct summaries as [|e1 [|e2 [|e3 rest]]];
      try (vm_compute in E; discriminate E).
    assert (succeeded e1 = true /\ succeeded e2 = true /\ succeeded e3 = true)
      as (H1 & H2 & H3).
    { vm_compute in E. injection E as <- <- <- _ _ _.
      split; [|split]; reflexivity. }
    now rewrite (H e1 e2 e3 rest eq_refl H1 H2 H3).
  - destruct (process_loop _ Sample.five 0 [] Sample.w0)
      as [[summaries processed_count] w'] eqn:E.
    destruct (process_loop_cap _ _ _ _ _ _ E) as (_ & _ & _ & _ & H).
    vm_compute in E. injection E as <- <- <-.
    destruct H as [H _]; [vm_compute; lia|].
    apply (f_equal (@length _)) in H. rewrite length_map in H. exact H.
Defined.

(** ** The handler *)

Lemma get_last_month_youtube_podcasts_log (env : Env) (q : string) (n : Z)
    (w : World) :
  downloads (get_last_month_youtube_podcasts env q n w).2 = downloads w.
Proof.
  unfold get_last_month_youtube_podcasts.
  destruct (key_available (YOUTUBE_API_KEY env)); simpl; [|reflexivity].
  destruct (youtube_search env w q n); reflexivity.
Qed.

(** A request either ends before the loop, with no entry and no download,
    or answers 200 with the entries of the loop run on the candidates
    retrieved. *)
Lemma daily_digest_run (env : Env) (req : get_json_result) (w : World) :
  (entries_of (daily_digest env req w).1 = []
   /\ downloads (daily_digest env req w).2 = downloads w)
  \/ exists q podcasts w1,
       get_last_month_youtube_podcasts env q 5 w = (podcasts, w1)
       /\ daily_digest env req w
          = (mkResponse 200 (EntryArray (process_loop env podcasts 0 [] w1).1.1),
             (process_loop env podcasts 0 [] w1).2).
Proof.
  unfold daily_digest.
  destruct req as [e|data]; [left; auto|].
  destruct (Py.truthy data); simpl negb; cbv iota; [|left; auto].
  destruct (Py.get data "category" _) as [e|category]; [left; auto|].
  destruct (companies_of data) as [e|v]; [left; auto|].
  destruct v as [| | | |l|]; try (left; split; reflexivity).
  destruct l as [|company others]; [left; auto|].
  pose proof (get_last_month_youtube_podcasts_log env
                (search_keywords env category (company :: others)) 5 w) as Hlog.
  destruct (get_last_month_youtube_podcasts env _ 5 w) as [podcasts w1] eqn:Hget.
  simpl in Hlog.
  destruct podcasts as [|podcast podcasts]; [left; auto|].
  right. exists (search_keywords env category (company :: others)),
    (podcast :: podcasts), w1.
  split; [exact Hget|].
  destruct (process_loop env (podcast :: podcasts) 0 [] w1) as [[s c] w2].
  reflexivity.
Qed.

Lemma process_loop_trace (env : Env) (podcasts : list CandidateItem) (w : World) :
  let r := process_loop env podcasts 0 [] w in
  (exists rest, podcasts = (map item_of r.1.1 ++ rest)%list)
  /\ downloads r.2 = (downloads w ++ map video_url r.1.1)%list.
Proof.
  intros r. subst r.
  destruct (process_loop env podcasts 0 [] w) as [[s c] w'] eqn:E.
  apply process_loop_run in E as (rest & Hp & _ & Hd & _).
  simpl. split; [exists rest; exact Hp | exact Hd].
Qed.

Lemma daily_digest_downloads (env : Env) (req : get_json_result) (w : World) :
  let r := daily_digest env req w in
  downloads r.2 = (downloads w ++ map video_url (entries_of r.1))%list.
Proof.
  intros r. subst r.
  destruct (daily_digest_run env req w)
    as [[He Hd]|(q & podcasts & w1 & Hget & ->)].
  - rewrite He, Hd. simpl. now rewrite app_nil_r.
  - destruct (process_loop_trace env podcasts w1) as [_ Hd]. simpl in *.
    rewrite Hd.
    pose proof (get_last_month_youtube_podcasts_log env q 5 w) as Hlog.
    rewrite Hget in Hlog. simpl in Hlog. now rewrite Hlog.
Qed.

(** C5: every attempted candidate yields exactly one entry, in the order of
    the attempts.  In the loop the entries report, one each and in order,
    on a prefix of the candidates, and the download calls made are those
    for the urls of the entries, in the same order; for every request the
    download calls made while it is handled are those for the urls of the
    entries of the response, in order. *)
Theorem one_entry_per_attempt (env : Env) :
  (forall (podcasts : list CandidateItem) (w : World),
     let r := process_loop env podcasts 0 [] w in
     (exists rest, podcasts = (map item_of r.1.1 ++ rest)%list)
     /\ downloads r.2 = (downloads w ++ map video_url r.1.1)%list)
  /\ (forall (req : get_json_result) (w : World),
        let r := daily_digest env req w in
        downloads r.2 = (downloads w ++ map video_url (entries_of r.1))%list).
Proof.
  split.
  - apply process_loop_trace.
  - apply daily_digest_downloads.
Qed.

(** C2, as the specification states it, fails: when the downloads fail, five
    candidates are attempted for one request, more than the cap of 3. *)
Lemma attempts_exceed_cap :
  let env := Sample.sample_env (Some "sk-key") false true true 5000 in
  let r := daily_digest env (JsonValue (Py.JDict [("category", Py.JStr "shipping")]))
             Sample.w0 in
  length (entries_of r.1) = 5%nat
  /\ length (downloads r.2) = 5%nat
  /\ ~ (length (downloads r.2) <= 3)%nat.
Proof. vm_compute. repeat split. lia. Qed.

(** C2, amended: for every request the number of entries in the response
    is the number of items attempted (download calls made); the entries
    without error are at most 3; and the loop attempts at most as many
    items as there are candidates. *)
Theorem entries_attempts_successes (env : Env) :
  (forall (req : get_json_result) (w : World),
     let r := daily_digest env req w in
     length (downloads r.2) = (length (downloads w) + length (entries_of r.1))%nat
     /\ (successes (entries_of r.1) <= 3)%nat)
  /\ (forall (podcasts : list CandidateItem) (w : World),
        (length (process_loop env podcasts 0 [] w).1.1 <= length podcasts)%nat).
Proof.
  split.
  - intros req w r.
    split.
    + pose proof (daily_digest_downloads env req w) as H.
      subst r. simpl in H. rewrite H, length_app, length_map. reflexivity.
    + subst r.
      destruct (daily_digest_run env req w)
        as [[He _]|(q & podcasts & w1 & _ & ->)].
      * rewrite He. unfold successes. simpl. lia.
      * destruct (process_loop env podcasts 0 [] w1) as [[s c] w'] eqn:E.
        apply process_loop_run in E as (rest & _ & _ & _ & _ & Hstart).
        apply successes_le_cap in Hstart.
        unfold entries_of, max_videos_to_process in *. simpl. lia.
  - intros podcasts w.
    destruct (process_loop env podcasts 0 [] w) as [[s c] w'] eqn:E.
    apply process_loop_run in E as (rest & Hp & _).
    simpl. rewrite Hp, length_app, length_map. lia.
Qed.

(** ** The [error] field *)

Lemma long_test (text : string) :
  (50 <= String.length (Py.strip text))%nat ->
  String.eqb text "" || (String.length (Py.strip text) <? min_chars)%nat = false.
Proof.
  intros H. apply orb_false_iff. split.
  - destruct text; [simpl in H; lia | reflexivity].
  - apply Nat.ltb_ge. unfold min_chars. lia.
Qed.

Lemma summarize_text_failure (env : Env) (text : string) (w : World) (e : string) :
  key_available (OPENAI_API_KEY env) = true ->
  (50 <= String.length (Py.strip text))%nat ->
  (forall prompt, chat_completion env w prompt = inl e) ->
  (summarize_text env text w).1 = "Summary generation failed: " +:+ e.
Proof.
  intros Hkey Hlong Hchat. unfold summarize_text.
  rewrite Hkey, (long_test text Hlong), Hchat. reflexivity.
Qed.

(** C3, as the specification states it, fails: when the generation service
    raises, the entry has no [error] field; the message of the failure is
    its summary. *)
Lemma summarization_failure_has_no_error :
  let env := Sample.sample_env (Some "sk-key") true true false 5000 in
  let r := process_podcast env Sample.podcast1 Sample.w0 in
  (forall w prompt, chat_completion env w prompt = inl "Rate limit reached")
  /\ length (generations r.2) = 1%nat
  /\ error r.1.1 = None
  /\ summary r.1.1 = "Summary generation failed: Rate limit reached".
Proof.
  split; [intros; reflexivity|]. vm_compute. repeat split.
Qed.

(** C3, amended: the entry of an item has an [error] field exactly when the
    download or the transcription (with its credential, existence and size
    tests) raised, and its summary is then [Processing failed: ] followed by
    the message; when both succeeded the entry has no [error] field, carries
    the length of the transcript, and its summary is what [summarize_text]
    returned, which for a failing generation service is
    [Summary generation failed: ] followed by the message.  The summary is
    present in every case. *)
Theorem error_field_iff (env : Env) (podcast : CandidateItem) (w : World) :
  let d := download_audio env (c_video_url podcast) w in
  let entry := (process_podcast env podcast w).1.1 in
  (forall e, error entry = Some e <->
     (d.1 = inl e
      \/ exists audio_path,
           d.1 = inr audio_path
           /\ (transcribe_audio env audio_path d.2).1 = inl e))
  /\ (forall e, error entry = Some e ->
        summary entry = "Processing failed: " +:+ e
        /\ transcript_length entry = None)
  /\ (forall audio_path transcription,
        d.1 = inr audio_path ->
        (transcribe_audio env audio_path d.2).1 = inr transcription ->
        error entry = None
        /\ transcript_length entry = Some (String.length transcription)
        /\ summary entry
           = (summarize_text env transcription
                (transcribe_audio env audio_path d.2).2).1)
  /\ (forall text w0 e,
        key_available (OPENAI_API_KEY env) = true ->
        (50 <= String.length (Py.strip text))%nat ->
        (forall prompt, chat_completion env w0 prompt = inl e) ->
        (summarize_text env text w0).1 = "Summary generation failed: " +:+ e).
Proof.
  intros d entry. subst d entry. unfold process_podcast.
  destruct (download_audio env (c_video_url podcast) w) as [[e1|audio_path] w1];
    simpl.
  { split; [|split; [|split]].
    - intros e. split.
      + intros [= <-]. now left.
      + intros [[= <-]|(p & [=] & _)]. reflexivity.
    - intros e [= <-]. split; reflexivity.
    - intros p t [=].
    - apply summarize_text_failure. }
  destruct (transcribe_audio env audio_path w1) as [[e2|transcription] w2] eqn:Ht;
    simpl.
  { split; [|split; [|split]].
    - intros e. split.
      + intros [= <-]. right. exists audio_path. now rewrite Ht.
      + intros [[=]|(p & [= <-] & H)]. rewrite Ht in H. simpl in H.
        congruence.
    - intros e [= <-]. split; reflexivity.
    - intros p t [= <-]. rewrite Ht. simpl. discriminate.
    - apply summarize_text_failure. }
  destruct (summarize_text env transcription w2) as [summary_text w3] eqn:Hs.
  simpl.
  split; [|split; [|split]].
  - intros e. split.
    + discriminate.
    + intros [[=]|(p & [= <-] & H)]. rewrite Ht in H. discriminate H.
  - intros e [=].
  - intros p t [= <-]. rewrite Ht. simpl. intros [= <-].
    rewrite Hs. repeat split.
  - apply summarize_text_failure.
Qed.

Lemma error_field_iff_witness :
  let env := Sample.sample_env (Some "sk-key") true true false 5000 in
  let entry := (process_podcast env Sample.podcast1 Sample.w0).1.1 in
  error entry = None
  /\ summary entry = "Summary generation failed: Rate limit reached".
Proof.
  intros env entry.
  destruct (error_field_iff env Sample.podcast1 Sample.w0)
    as (_ & _ & H & Hfail).
  destruct (H "audio_10000000.m4a" Sample.long_text eq_refl eq_refl)
    as (Herr & _ & Hsum).
  split; [exact Herr|].
  subst entry. rewrite Hsum.
  apply Hfail; [reflexivity | vm_compute; lia | reflexivity].
Defined.

(** ** The temporary audio file *)

(** Once the [try] block is entered the [finally] block removes the file,
    provided [os.remove] succeeds. *)
Lemma transcribe_audio_cleanup (env : Env) (file_path : string) (w : World)
    (file_size : Z) :
  key_available (OPENAI_API_KEY env) = true ->
  files w !! file_path = Some file_size ->
  size_gate file_size = None ->
  os_remove env (log_transcription file_path w) file_path = true ->
  files (transcribe_audio env file_path w).2 !! file_path = None.
Proof.
  intros Hkey Hfile Hgate Hrm. unfold transcribe_audio.
  rewrite Hkey, Hfile, Hgate. simpl. unfold cleanup. simpl.
  rewrite Hfile, Hrm. simpl. apply lookup_delete_eq.
Qed.

(** The tests before the [try] block raise with the world as it was: the
    file stays in the scratch directory. *)
Lemma transcribe_audio_early_raise (env : Env) (file_path : string) (w : World)
    (file_size : Z) :
  files w !! file_path = Some file_size ->
  key_available (OPENAI_API_KEY env) = false \/ size_gate file_size <> None ->
  (exists e, (transcribe_audio env file_path w).1 = inl e)
  /\ (transcribe_audio env file_path w).2 = w.
Proof.
  intros Hfile H. unfold transcribe_audio.
  destruct (key_available (OPENAI_API_KEY env)); simpl.
  - rewrite Hfile. destruct H as [H|H]; [discriminate H|].
    destruct (size_gate file_size) as [e|]; [|congruence].
    simpl. eauto.
  - eauto.
Qed.

(** C4, on a download of 500 bytes: the size test raises before the [try]
    block is entered, the item gets its failure entry, and the file that the
    download wrote is still in the scratch directory when the item
    completes. *)
Theorem small_payload_survives :
  let env := Sample.sample_env (Some "sk-key") true true true 500 in
  let r := process_podcast env Sample.podcast1 Sample.w0 in
  error r.1.1 = Some "Audio file too small - likely corrupted"
  /\ files Sample.w0 !! "audio_10000000.m4a" = None
  /\ files r.2 !! "audio_10000000.m4a" = Some 500.
Proof. vm_compute. repeat split. Qed.

(** ** The search log *)

Lemma download_audio_searches (env : Env) (url : string) (w : World) :
  searches (download_audio env url w).2 = searches w.
Proof.
  unfold download_audio.
  destruct (ydl_download env w url _) as [fs [e|filename]]; simpl; [auto|].
  destruct (fs !! filename); simpl; [auto|].
  destruct (List.find _ _); simpl; auto.
Qed.

Lemma transcribe_audio_searches (env : Env) (path : string) (w : World) :
  searches (transcribe_audio env path w).2 = searches w.
Proof.
  unfold transcribe_audio.
  destruct (key_available (OPENAI_API_KEY env)); simpl; [|auto].
  destruct (files w !! path) as [file_size|] eqn:Hf; simpl; [|auto].
  destruct (size_gate file_size); simpl; [auto|].
  unfold cleanup. simpl. rewrite Hf.
  destruct (os_remove env _ path); reflexivity.
Qed.

Lemma summarize_text_searches (env : Env) (text : string) (w : World) :
  searches (summarize_text env text w).2 = searches w.
Proof.
  unfold summarize_text.
  destruct (key_available (OPENAI_API_KEY env)); simpl; [|reflexivity].
  destruct (String.eqb text "" || _); simpl; [reflexivity|].
  destruct (chat_completion env w _) as [e|[summary_text|]]; simpl;
    try reflexivity.
  destruct (String.eqb summary_text "" || _); reflexivity.
Qed.

Lemma process_podcast_searches (env : Env) (podcast : CandidateItem) (w : World) :
  searches (process_podcast env podcast w).2 = searches w.
Proof.
  unfold process_podcast.
  pose proof (download_audio_searches env (c_video_url podcast) w) as Hd.
  destruct (download_audio env (c_video_url podcast) w) as [[e|audio_path] w1];
    simpl in *; [exact Hd|].
  pose proof (transcribe_audio_searches env audio_path w1) as Ht.
  destruct (transcribe_audio env audio_path w1) as [[e|transcription] w2];
    simpl in *; [congruence|].
  pose proof (summarize_text_searches env transcription w2) as Hs.
  destruct (summarize_text env transcription w2) as [summary_text w3].
  simpl in *. congruence.
Qed.

Lemma process_loop_searches (env : Env) (podcasts : list CandidateItem) :
  forall c acc w, searches (process_loop env podcasts c acc w).2 = searches w.
Proof.
  induction podcasts as [|podcast podcasts IH]; intros c acc w; [reflexivity|].
  rewrite process_loop_cons.
  destruct (max_videos_to_process <=? c)%nat; [reflexivity|].
  pose proof (process_podcast_searches env podcast w) as Hp.
  destruct (process_podcast env podcast w) as [[entry ok] w1].
  simpl in Hp. rewrite IH. exact Hp.
Qed.

(** A truthy body whose [company]/[companies] resolve to a non-empty list
    is answered with status 200, and when the search credential is set the
    one query sent is built from the category and that list. *)
Lemma daily_digest_valid (env : Env) (data category company : Py.json)
    (others : list Py.json) (w : World) :
  Py.truthy data = true ->
  Py.get data "category" (Py.JStr "shipping industry") = inr category ->
  companies_of data = inr (Py.JList (company :: others)) ->
  let r := daily_digest env (JsonValue data) w in
  status r.1 = 200
  /\ (exists entries, body r.1 = EntryArray entries)
  /\ (key_available (YOUTUBE_API_KEY env) = true ->
      searches r.2
      = (searches w ++ [search_keywords env category (company :: others)])%list).
Proof.
  intros Htruthy Hcat Hcomp r. subst r. unfold daily_digest.
  rewrite Htruthy, Hcat, Hcomp. simpl negb. cbv iota.
  set (q := search_keywords env category (company :: others)).
  assert (Hs : key_available (YOUTUBE_API_KEY env) = true ->
               searches (get_last_month_youtube_podcasts env q 5 w).2
               = (searches w ++ [q])%list).
  { intros Hkey. unfold get_last_month_youtube_podcasts. rewrite Hkey. simpl.
    destruct (youtube_search env w q 5); reflexivity. }
  destruct (get_last_month_youtube_podcasts env q 5 w) as [podcasts w1].
  simpl in Hs.
  destruct podcasts as [|podcast podcasts].
  - simpl. split; [reflexivity|]. split; [eauto|]. exact Hs.
  - cbv beta iota.
    pose proof (process_loop_searches env (podcast :: podcasts) 0 [] w1) as Hl.
    destruct (process_loop env (podcast :: podcasts) 0 [] w1) as [[s c] w2].
    unfold fst, snd in *. simpl status. simpl body.
    split; [reflexivity|]. split; [eauto|].
    intros Hkey. rewrite Hl. now apply Hs.
Qed.

Lemma get_dict (kv : list (string * Py.json)) (k : string) (dflt : Py.json) :
  Py.get (Py.JDict kv) k dflt = inr (default dflt (Py.dict_get k kv)).
Proof. reflexivity. Qed.

Lemma get_inl_companies_of (data : Py.json) (k e : string) (dflt : Py.json) :
  Py.get data k dflt = inl e -> exists e', companies_of data = inl e'.
Proof.
  destruct data as [| b | n | s | l | kv]; simpl; intros H;
    try (eexists; reflexivity).
  discriminate H.
Qed.

(** The five ways a request ends. *)
Lemma daily_digest_cases (env : Env) (req : get_json_result) (w : World) :
  (exists e, req = JsonRaises e /\ daily_digest env req w = (empty_array, w))
  \/ (exists data,
        req = JsonValue data /\ Py.truthy data = false
        /\ daily_digest env req w
           = (mkResponse 400 (ErrorObject "Missing JSON body"), w))
  \/ (exists data e,
        req = JsonValue data /\ Py.truthy data = true
        /\ companies_of data = inl e
        /\ daily_digest env req w = (empty_array, w))
  \/ (exists data v,
        req = JsonValue data /\ Py.truthy data = true
        /\ companies_of data = inr v /\ nonempty_list v = false
        /\ daily_digest env req w
           = (mkResponse 400
                (ErrorObject "company/companies must be a non-empty list or string"),
              w))
  \/ (exists data category company others,
        req = JsonValue data /\ Py.truthy data = true
        /\ Py.get data "category" (Py.JStr "shipping industry") = inr category
        /\ companies_of data = inr (Py.JList (company :: others))
        /\ status (daily_digest env req w).1 = 200
        /\ exists entries,
             body (daily_digest env req w).1 = EntryArray entries
             /\ ((get_last_month_youtube_podcasts env
                    (search_keywords env category (company :: others)) 5 w).1 = []
                 -> entries = [])).
Proof.
  destruct req as [e|data]; [left; eauto|]. right.
  destruct (Py.truthy data) eqn:Htruthy;
    [right | left; exists data; unfold daily_digest; rewrite Htruthy; auto].
  destruct (Py.get data "category" (Py.JStr "shipping industry"))
    as [e|category] eqn:Hcat.
  { left. destruct (get_inl_companies_of _ _ _ _ Hcat) as [e' He'].
    exists data, e'. unfold daily_digest. rewrite Htruthy, Hcat. auto. }
  destruct (companies_of data) as [e|v] eqn:Hcomp.
  { left. exists data, e. unfold daily_digest.
    rewrite Htruthy, Hcat, Hcomp. auto. }
  right.
  destruct (nonempty_list v) eqn:Hne.
  - right. destruct v as [| | | |[|company others]|]; try discriminate Hne.
    exists data, category, company, others.
    destruct (daily_digest_valid env data category company others w
                Htruthy Hcat Hcomp) as (Hst & _ & _).
    repeat (split; [assumption || reflexivity|]).
    unfold daily_digest. rewrite Htruthy, Hcat, Hcomp. simpl negb. cbv iota.
    destruct (get_last_month_youtube_podcasts env _ 5 w) as [[|p ps] w1].
    + exists []. split; reflexivity.
    + cbv beta iota.
      destruct (process_loop env (p :: ps) 0 [] w1) as [[s c] w2].
      exists s. split; [reflexivity|]. simpl. discriminate.
  - left. exists data, v. unfold daily_digest.
    rewrite Htruthy, Hcat, Hcomp. simpl negb. cbv iota.
    destruct v as [| | | |[|company others]|]; try discriminate Hne; auto.
Qed.

Lemma get_last_month_youtube_podcasts_error (env : Env) (q : string) (n : Z)
    (w : World) :
  key_available (YOUTUBE_API_KEY env) = false
  \/ (exists e, youtube_search env w q n = inl e) ->
  (get_last_month_youtube_podcasts env q n w).1 = [].
Proof.
  unfold get_last_month_youtube_podcasts.
  intros [Hkey|[e He]].
  - now rewrite Hkey.
  - destruct (key_available (YOUTUBE_API_KEY env)); [|reflexivity].
    simpl. now rewrite He.
Qed.

(** C6, as the specification states it, fails on the empty object: the body
    is present and its [company]/[companies] resolve to the preset list,
    which is a non-empty list, yet the answer is 400 with an error object. *)
Lemma empty_object_is_rejected :
  let env := Sample.sample_env (Some "sk-key") true true true 5000 in
  let data := Py.JDict [] in
  data <> Py.JNull
  /\ companies_of data = inr preset
  /\ nonempty_list preset = true
  /\ (daily_digest env (JsonValue data) Sample.w0).1
     = mkResponse 400 (ErrorObject "Missing JSON body").
Proof. repeat split. discriminate. Qed.

(** C6, amended: a failing search (or a missing search credential) gives no
    candidates; a request ends with status 200 or 400; the status is 400
    exactly when the parsed body is falsy (null, or an empty object, array
    or string, zero, false) or [company]/[companies] resolve to something
    that is not a non-empty list; the body of a 200 response is an array and
    that of a 400 response an error object; a failing [get_json], a truthy
    body that is not an object, and an empty list of candidates all give 200
    with the empty array. *)
Theorem daily_digest_status (env : Env) (req : get_json_result) (w : World) :
  let r := (daily_digest env req w).1 in
  (forall q n,
     key_available (YOUTUBE_API_KEY env) = false
     \/ (exists e, youtube_search env w q n = inl e) ->
     (get_last_month_youtube_podcasts env q n w).1 = [])
  /\ (status r = 200 \/ status r = 400)
  /\ (status r = 400 <->
      exists data,
        req = JsonValue data
        /\ (Py.truthy data = false
            \/ exists v, companies_of data = inr v /\ nonempty_list v = false))
  /\ (status r = 200 <-> exists entries, body r = EntryArray entries)
  /\ (forall e, req = JsonRaises e -> r = empty_array)
  /\ (forall data e,
        req = JsonValue data -> Py.truthy data = true ->
        Py.get data "category" (Py.JStr "shipping industry") = inl e ->
        r = empty_array)
  /\ (forall data category company others,
        req = JsonValue data -> Py.truthy data = true ->
        Py.get data "category" (Py.JStr "shipping industry") = inr category ->
        companies_of data = inr (Py.JList (company :: others)) ->
        (get_last_month_youtube_podcasts env
           (search_keywords env category (company :: others)) 5 w).1 = [] ->
        r = empty_array).
Proof.
  intros r. subst r.
  split; [intros q n; apply get_last_month_youtube_podcasts_error|].
  destruct (daily_digest_cases env req w)
    as [(e & -> & ->)
       |[(data & -> & Ht & ->)
        |[(data & e & -> & Ht & Hc & ->)
         |[(data & v & -> & Ht & Hc & Hne & ->)
          |(data & category & company & others & -> & Ht & Hcat & Hc & Hst
            & entries & Hb & Hempty)]]]]; [simpl .. | ].
  - split; [now left|]. split; [|split; [|split; [|split]]].
    + split; [discriminate | intros (data & [=] & _)].
    + split; [eauto | reflexivity].
    + reflexivity.
    + discriminate.
    + discriminate.
  - split; [now right|]. split; [|split; [|split; [|split]]].
    + split; [eauto | reflexivity].
    + split; [discriminate | intros [entries [=]]].
    + discriminate.
    + intros d e [= <-]. congruence.
    + intros d c co ot [= <-]. congruence.
  - split; [now left|]. split; [|split; [|split; [|split]]].
    + split; [discriminate|].
      intros (d & [= <-] & [H|(v & H & _)]); congruence.
    + split; [eauto | reflexivity].
    + discriminate.
    + reflexivity.
    + reflexivity.
  - split; [now right|]. split; [|split; [|split; [|split]]].
    + split; [eauto 6 | reflexivity].
    + split; [discriminate | intros [entries [=]]].
    + discriminate.
    + intros d e [= <-] _ He.
      destruct (get_inl_companies_of _ _ _ _ He) as [e' He']. congruence.
    + intros d c co ot [= <-] _ _ Hc'. rewrite Hc in Hc'.
      injection Hc' as ->. discriminate Hne.
  - split; [now left|]. split; [|split; [|split; [|split]]].
    + split; [rewrite Hst; discriminate|].
      intros (d & [= <-] & [H|(v & H & Hne)]); [congruence|].
      rewrite Hc in H. injection H as <-. discriminate Hne.
    + split; [eauto | intros _; exact Hst].
    + discriminate.
    + intros d e [= <-] _ He. congruence.
    + intros d c co ot [= <-] _ Hcat' Hc' Hget.
      rewrite Hcat in Hcat'. injection Hcat' as <-.
      rewrite Hc in Hc'. injection Hc' as <- <-.
      specialize (Hempty Hget). subst entries.
      destruct (daily_digest env (JsonValue data) w).1 as [st b].
      simpl in *. subst. reflexivity.
Qed.

Lemma daily_digest_status_witness :
  let env := Sample.sample_env (Some "sk-key") true true true 5000 in
  (daily_digest env (JsonValue (Py.JList [Py.JNum 1])) Sample.w0).1 = empty_array
  /\ status (daily_digest env (JsonValue (Py.JDict [("company", Py.JNum 7)]))
               Sample.w0).1 = 400.
Proof.
  intros env. split.
  - destruct (daily_digest_status env (JsonValue (Py.JList [Py.JNum 1])) Sample.w0)
      as (_ & _ & _ & _ & _ & H & _).
    apply (H (Py.JList [Py.JNum 1]) "object has no attribute 'get'");
      reflexivity.
  - destruct (daily_digest_status env
                (JsonValue (Py.JDict [("company", Py.JNum 7)])) Sample.w0)
      as (_ & _ & H & _).
    apply H. exists (Py.JDict [("company", Py.JNum 7)]).
    split; [reflexivity|]. right. exists (Py.JNum 7). split; reflexivity.
Defined.

(** ** [company] and [companies] *)


Lemma companies_of_truthy (kv : list (string * Py.json)) (v : Py.json) :
  Py.dict_get "company" kv = Some v -> Py.truthy v = true ->
  companies_of (Py.JDict kv) = inr (as_list v).
Proof.
  intros H Ht. unfold companies_of. rewrite get_dict, H. simpl default.
  rewrite Ht. simpl negb. cbv iota. destruct v; reflexivity.
Qed.




(** * Further properties of the code *)

(** ** The candidates of a search *)

Lemma to_podcasts_app (a b : list SearchResult) :
  to_podcasts (a ++ b) = (to_podcasts a ++ to_podcasts b)%list.
Proof.
  induction a as [|item a IH]; [reflexivity|].
  simpl. destruct (videoId item) as [video_id|]; [|exact IH].
  destruct (String.eqb video_id ""); [exact IH|].
  simpl. now rewrite IH.
Qed.

Lemma to_podcasts_length (items : list SearchResult) :
  (length (to_podcasts items) <= length items)%nat.
Proof.
  induction items as [|item items IH]; simpl; [lia|].
  destruct (videoId item) as [video_id|]; [|lia].
  destruct (String.eqb video_id ""); simpl; lia.
Qed.

Lemma to_podcasts_In (items : list SearchResult) (c : CandidateItem) :
  In c (to_podcasts items) <->
  exists item video_id,
    In item items /\ videoId item = Some video_id /\ video_id <> ""
    /\ c = candidate_of item video_id.
Proof.
  induction items as [|item items IH]; simpl.
  - split; [intros [] | intros (item & video_id & [] & _)].
  - destruct (videoId item) as [video_id|] eqn:Hid.
    + destruct (String.eqb_spec video_id "") as [Hempty|Hne].
      * rewrite IH. split.
        -- intros (i & v & Hin & H). exists i, v. auto.
        -- intros (i & v & [<-|Hin] & Hv & Hnz & Hc); [congruence|].
           exists i, v. auto.
      * simpl. rewrite IH. split.
        -- intros [<-|(i & v & Hin & H)].
           ++ exists item, video_id. auto.
           ++ exists i, v. auto.
        -- intros (i & v & [<-|Hin] & Hv & Hnz & Hc).
           ++ left. rewrite Hid in Hv. injection Hv as <-. now rewrite Hc.
           ++ right. exists i, v. auto.
    + rewrite IH. split.
      * intros (i & v & Hin & H). exists i, v. auto.
      * intros (i & v & [<-|Hin] & Hv & Hnz & Hc); [congruence|].
        exists i, v. auto.
Qed.

(** X1: the candidates that [get_last_month_youtube_podcasts] returns are
    never more than the raw items of the answer, and each one is built from
    a raw item that has a non-empty video id: it carries that item's title,
    channel and date, and its url is the watch url of the id.  A raw item
    without an id, or with an empty one, gives no candidate. *)
Theorem candidates_have_video_ids (env : Env) (q : string) (n : Z) (w : World) :
  forall c, In c (get_last_month_youtube_podcasts env q n w).1 ->
  exists items item video_id,
    youtube_search env w q n = inr items
    /\ (length (get_last_month_youtube_podcasts env q n w).1 <= length items)%nat
    /\ In item items /\ videoId item = Some video_id /\ video_id <> ""
    /\ c = candidate_of item video_id.
Proof.
  intros c. unfold get_last_month_youtube_podcasts.
  destruct (key_available (YOUTUBE_API_KEY env)); simpl; [|intros []].
  destruct (youtube_search env w q n) as [e|items]; simpl; [intros []|].
  intros Hin. apply to_podcasts_In in Hin as (item & video_id & H).
  exists items, item, video_id. split; [reflexivity|].
  split; [apply to_podcasts_length | exact H].
Qed.

Lemma candidates_have_video_ids_witness :
  exists items item video_id,
    youtube_search (Sample.sample_env (Some "sk-key") true true true 5000)
      Sample.w0 "shipping" 5 = inr items
    /\ (length (get_last_month_youtube_podcasts
                  (Sample.sample_env (Some "sk-key") true true true 5000)
                  "shipping" 5 Sample.w0).1 <= length items)%nat
    /\ In item items /\ videoId item = Some video_id /\ video_id <> ""
    /\ Sample.podcast1 = candidate_of item video_id.
Proof.
  apply (candidates_have_video_ids
           (Sample.sample_env (Some "sk-key") true true true 5000)
           "shipping" 5 Sample.w0 Sample.podcast1).
  vm_compute. left. reflexivity.
Defined.

(** X2: the order of the provider is kept and the mapping works item by
    item: the candidates of two lists of raw items put one after the other
    are the candidates of the first followed by those of the second. *)
Theorem to_podcasts_keeps_order (a b : list SearchResult) :
  to_podcasts (a ++ b) = (to_podcasts a ++ to_podcasts b)%list
  /\ (length (to_podcasts (a ++ b)) <= length a + length b)%nat.
Proof.
  split; [apply to_podcasts_app|].
  rewrite to_podcasts_app, length_app.
  pose proof (to_podcasts_length a). pose proof (to_podcasts_length b). lia.
Qed.

(** ** The downloaded file *)

Lemma listdir_lookup (fs : gmap string Z) (file : string) :
  In file (map fst (map_to_list fs)) -> is_Some (fs !! file).
Proof.
  intros Hin. apply in_map_iff in Hin as ([name size] & <- & Hin).
  apply list_elem_of_In, elem_of_map_to_list in Hin. simpl. eauto.
Qed.

(** X3: a file name returned by [download_audio] names a file that is in
    the scratch directory when the function returns; when the name the
    downloader announced is not there, the name returned is that of a file
    of the directory that carries the unique id and an audio extension.  An
    error raised is the downloader's own or [Downloaded file not found]. *)
Theorem download_audio_result (env : Env) (video_url : string) (w : World) :
  let unique_id := Py.take_str 8 (uuid4 env w) in
  let announced :=
    (ydl_download env w video_url ("audio_" +:+ unique_id +:+ ".%(ext)s")).2 in
  (forall file w',
     download_audio env video_url w = (inr file, w') ->
     is_Some (files w' !! file)
     /\ (announced = inr file
         \/ (Py.contains unique_id file = true /\ audio_ext file = true)))
  /\ (forall e w',
        download_audio env video_url w = (inl e, w') ->
        announced = inl e \/ e = "Downloaded file not found").
Proof.
  intros unique_id announced. subst unique_id announced.
  unfold download_audio.
  destruct (ydl_download env w video_url _) as [fs [e|filename]]; simpl.
  - split; [intros file w' [=] | intros e' w' [= <- _]; now left].
  - destruct (fs !! filename) as [size|] eqn:Hf.
    + split; [|intros e' w' [=]].
      intros file w' [= <- <-]. simpl. rewrite Hf. eauto.
    + destruct (List.find _ _) as [file|] eqn:Hfind.
      * split; [|intros e' w' [=]].
        intros file' w' [= <- <-].
        apply List.find_some in Hfind as [Hin Htest].
        apply andb_true_iff in Htest. simpl.
        split; [now apply listdir_lookup | now right].
      * split; [intros file w' [=]|].
        intros e' w' [= <- _]. now right.
Qed.

Lemma download_audio_result_witness :
  is_Some (files (download_audio
                    (Sample.sample_env (Some "sk-key") true true true 5000)
                    "https://www.youtube.com/watch?v=v1" Sample.w0).2
           !! "audio_10000000.m4a").
Proof.
  pose (env := Sample.sample_env (Some "sk-key") true true true 5000).
  destruct (download_audio_result env "https://www.youtube.com/watch?v=v1"
              Sample.w0) as [H _].
  destruct (H "audio_10000000.m4a"
              (download_audio env "https://www.youtube.com/watch?v=v1"
                 Sample.w0).2) as [Hfile _]; [reflexivity|].
  exact Hfile.
Defined.

(** Every call of [download_audio] draws one unique id and is one download
    attempt, whether it returns or raises; it makes no other call. *)
Lemma download_audio_effects (env : Env) (video_url : string) (w : World) :
  let w' := (download_audio env video_url w).2 in
  uuid_calls w' = S (uuid_calls w)
  /\ downloads w' = (downloads w ++ [video_url])%list
  /\ searches w' = searches w
  /\ transcriptions w' = transcriptions w
  /\ generations w' = generations w.
Proof.
  intros w'. subst w'. unfold download_audio.
  destruct (ydl_download env w video_url _) as [fs [e|filename]]; simpl;
    [repeat split|].
  destruct (fs !! filename); simpl; [repeat split|].
  destruct (List.find _ _); simpl; repeat split.
Qed.

(** ** What [transcribe_audio] does to the scratch directory *)

Lemma cleanup_other (env : Env) (path path' : string) (w : World) :
  path' <> path -> files (cleanup env path w) !! path' = files w !! path'.
Proof.
  intros Hne. unfold cleanup. destruct (files w !! path); [|reflexivity].
  destruct (os_remove env w path); [|reflexivity].
  simpl. now apply lookup_delete_ne.
Qed.

(** X4: [transcribe_audio] touches no file but the one it is given, and
    creates none: every other name of the scratch directory keeps its
    content, and the given name is afterwards either as before or gone. *)
Theorem transcribe_audio_frame (env : Env) (file_path : string) (w : World) :
  let w' := (transcribe_audio env file_path w).2 in
  (forall other, other <> file_path -> files w' !! other = files w !! other)
  /\ (files w' !! file_path = files w !! file_path
      \/ files w' !! file_path = None).
Proof.
  intros w'. subst w'. unfold transcribe_audio.
  destruct (key_available (OPENAI_API_KEY env)); simpl; [|auto].
  destruct (files w !! file_path) as [file_size|] eqn:Hf; simpl; [|auto].
  destruct (size_gate file_size); simpl; [auto|].
  split.
  - intros other Hne.
    now rewrite (cleanup_other env file_path other _ Hne).
  - unfold cleanup. simpl. rewrite Hf.
    destruct (os_remove env _ file_path); simpl; [right | left].
    + apply lookup_delete_eq.
    + exact Hf.
Qed.

Lemma transcribe_audio_frame_witness :
  let env := Sample.sample_env (Some "sk-key") true true true 0 in
  let w := mkWorld {[ "audio_1.m4a" := 5000; "notes.txt" := 12 ]} 1 [] [] [] [] in
  files (transcribe_audio env "audio_1.m4a" w).2 !! "notes.txt" = Some 12.
Proof.
  intros env w.
  destruct (transcribe_audio_frame env "audio_1.m4a" w) as [H _].
  rewrite (H "notes.txt") by discriminate. reflexivity.
Defined.

(** X5: once the credential, existence and size tests are passed, the file
    is removed whether the transcription service answers or raises,
    provided [os.remove] succeeds; the result is the text of the answer or
    the error of the service. *)
Theorem transcribe_audio_removes_file (env : Env) (file_path : string)
    (w : World) (file_size : Z) :
  key_available (OPENAI_API_KEY env) = true ->
  files w !! file_path = Some file_size ->
  1000 <= file_size <= 25 * 1024 * 1024 ->
  os_remove env (log_transcription file_path w) file_path = true ->
  files (transcribe_audio env file_path w).2 !! file_path = None
  /\ (transcribe_audio env file_path w).1
     = match whisper env w file_path with
       | inr transcript => inr (transcript_text transcript)
       | inl e => inl e
       end.
Proof.
  intros Hkey Hfile Hsize Hrm. unfold transcribe_audio.
  rewrite Hkey, Hfile, (size_gate_pass file_size Hsize). simpl.
  split; [|reflexivity].
  unfold cleanup. simpl. rewrite Hfile, Hrm. simpl. apply lookup_delete_eq.
Qed.

Lemma transcribe_audio_removes_file_witness :
  let env := Sample.sample_env (Some "sk-key") true false true 0 in
  let w := mkWorld {[ "audio_1.m4a" := 5000 ]} 1 [] [] [] [] in
  files (transcribe_audio env "audio_1.m4a" w).2 !! "audio_1.m4a" = None
  /\ (transcribe_audio env "audio_1.m4a" w).1 = inl "Connection error.".
Proof.
  intros env w.
  apply (transcribe_audio_removes_file env "audio_1.m4a" w 5000);
    [reflexivity | reflexivity | lia | reflexivity].
Defined.

(** ** The summariser *)

Lemma length_append (a b : string) :
  String.length (a +:+ b) = (String.length a + String.length b)%nat.
Proof. induction a as [|c a IH]; simpl; [reflexivity | now rewrite IH]. Qed.

Lemma length_take_str (n : nat) (s : string) :
  (String.length (Py.take_str n s) <= n)%nat.
Proof.
  unfold Py.take_str. revert s.
  induction n as [|n IH]; intros [|c s]; simpl; try lia.
  specialize (IH s). lia.
Qed.

Lemma length_take_str_le (n : nat) (s : string) :
  (String.length (Py.take_str n s) <= String.length s)%nat.
Proof.
  unfold Py.take_str. revert s.
  induction n as [|n IH]; intros [|c s]; simpl; try lia.
  specialize (IH s). lia.
Qed.

Lemma length_prompt_of (text : string) :
  String.length (prompt_of text)
  = (String.length (prompt_of "") + String.length text)%nat.
Proof.
  unfold prompt_of. rewrite !length_append. simpl. lia.
Qed.

Lemma max_chars_Z : Z.of_nat max_chars = 12000.
Proof. reflexivity. Qed.

(** X6: [summarize_text] sends at most one prompt to the generation
    service, and a prompt it sends holds at most 12003 characters of
    transcript around the fixed template, however long the transcript is. *)
Theorem summarize_text_prompt_bounded (env : Env) (text : string) (w : World) :
  let w' := (summarize_text env text w).2 in
  generations w' = generations w
  \/ exists prompt,
       generations w' = (generations w ++ [prompt])%list
       /\ Z.of_nat (String.length prompt)
          <= Z.of_nat (String.length (prompt_of "")) + 12003
       /\ Z.of_nat (String.length prompt)
          <= Z.of_nat (String.length (prompt_of ""))
             + Z.of_nat (String.length text) + 3.
Proof.
  intros w'. subst w'. unfold summarize_text.
  set (k := String.length (prompt_of "")).
  destruct (key_available (OPENAI_API_KEY env)); simpl; [|now left].
  destruct (String.eqb text "" || _); simpl; [now left|].
  right.
  set (text' := if (max_chars <? String.length text)%nat
                then Py.take_str max_chars text +:+ "..." else text).
  exists (prompt_of text').
  assert (Hlen : Z.of_nat (String.length text') <= 12003
                 /\ (String.length text' <= String.length text + 3)%nat).
  { subst text'. pose proof max_chars_Z.
    destruct (Nat.ltb_spec max_chars (String.length text)) as [H'|H'].
    - rewrite length_append. simpl.
      pose proof (length_take_str max_chars text).
      pose proof (length_take_str_le max_chars text). lia.
    - lia. }
  rewrite (length_prompt_of text'). fold k.
  split; [|lia].
  destruct (chat_completion env w (prompt_of text')) as [e|[summary_text|]];
    simpl; try reflexivity.
  destruct (String.eqb summary_text "" || _); reflexivity.
Qed.

Lemma strip_nonspace (c : ascii) (s : string) :
  Py.is_space c = false -> Py.strip (String c s) <> "".
Proof.
  intros Hc. unfold Py.strip. simpl Py.lstrip. rewrite Hc. simpl.
  destruct (Py.rstrip s); [rewrite Hc|]; discriminate.
Qed.

(** X7: the summary that [summarize_text] returns is never blank: it is
    one of the fixed messages, the failure message, or the content the
    generation service returned, and that content is used only when
    stripping it leaves something. *)
Theorem summarize_text_never_blank (env : Env) (text : string) (w : World) :
  Py.strip (summarize_text env text w).1 <> "".
Proof.
  unfold summarize_text.
  destruct (key_available (OPENAI_API_KEY env)); simpl; [|discriminate].
  destruct (String.eqb text "" || _); simpl; [discriminate|].
  destruct (chat_completion env w _) as [e|[summary_text|]]; simpl.
  - apply strip_nonspace. reflexivity.
  - destruct (String.eqb summary_text "") eqn:He; simpl; [discriminate|].
    destruct (String.eqb_spec (Py.strip summary_text) ""); simpl;
      [discriminate | assumption].
  - discriminate.
Qed.

Lemma truncated_same (t1 t2 : string) :
  (max_chars < String.length t1)%nat -> (max_chars < String.length t2)%nat ->
  Py.take_str max_chars t1 = Py.take_str max_chars t2 ->
  (if (max_chars <? String.length t1)%nat
   then Py.take_str max_chars t1 +:+ "..." else t1)
  = (if (max_chars <? String.length t2)%nat
     then Py.take_str max_chars t2 +:+ "..." else t2).
Proof.
  intros H1 H2 Heq.
  destruct (Nat.ltb_spec max_chars (String.length t1)); [|lia].
  destruct (Nat.ltb_spec max_chars (String.length t2)); [|lia].
  now rewrite Heq.
Qed.

(** X8: of a transcript longer than 12000 characters only the first 12000
    reach the generation service: two such transcripts that agree on them,
    and both pass the minimum-length test, get the same prompt and the same
    summary. *)
Theorem summarize_text_reads_prefix (env : Env) (t1 t2 : string) (w : World) :
  12000 < Z.of_nat (String.length t1) ->
  12000 < Z.of_nat (String.length t2) ->
  Py.take_str (Z.to_nat 12000) t1 = Py.take_str (Z.to_nat 12000) t2 ->
  (50 <= String.length (Py.strip t1))%nat ->
  (50 <= String.length (Py.strip t2))%nat ->
  summarize_text env t1 w = summarize_text env t2 w.
Proof.
  intros H1 H2 Heq Hs1 Hs2. unfold summarize_text.
  rewrite (long_test t1 Hs1), (long_test t2 Hs2).
  pose proof max_chars_Z.
  rewrite (truncated_same t1 t2); [reflexivity | lia | lia | exact Heq].
Qed.

Lemma summarize_text_reads_prefix_witness :
  let env := Sample.sample_env (Some "sk-key") true true true 0 in
  let t := Sample.copies 170 Sample.long_text in
  summarize_text env (t +:+ "One ending.") Sample.w0
  = summarize_text env (t +:+ "Another ending, longer.") Sample.w0.
Proof.
  intros env t.
  apply (summarize_text_reads_prefix env (t +:+ "One ending.")
           (t +:+ "Another ending, longer.") Sample.w0).
  - vm_compute. reflexivity.
  - vm_compute. reflexivity.
  - vm_compute. reflexivity.
  - apply Nat.leb_le. vm_compute. reflexivity.
  - apply Nat.leb_le. vm_compute. reflexivity.
Defined.

(** ** Calls made for a request *)

Lemma transcribe_audio_calls (env : Env) (path : string) (w : World) :
  let r := transcribe_audio env path w in
  (transcriptions r.2 = transcriptions w
   \/ transcriptions r.2 = (transcriptions w ++ [path])%list)
  /\ (forall text, r.1 = inr text ->
        transcriptions r.2 = (transcriptions w ++ [path])%list).
Proof.
  intros r. subst r. unfold transcribe_audio.
  destruct (key_available (OPENAI_API_KEY env)); simpl;
    [|split; [now left | discriminate]].
  destruct (files w !! path) as [file_size|] eqn:Hf; simpl;
    [|split; [now left | discriminate]].
  destruct (size_gate file_size); simpl; [split; [now left | discriminate]|].
  assert (H : transcriptions (cleanup env path (log_transcription path w))
              = (transcriptions w ++ [path])%list).
  { unfold cleanup. simpl. rewrite Hf.
    destruct (os_remove env _ path); reflexivity. }
  split; [now right | intros; exact H].
Qed.

Lemma summarize_text_calls (env : Env) (text : string) (w : World) :
  let w' := (summarize_text env text w).2 in
  transcriptions w' = transcriptions w
  /\ (length (generations w') <= S (length (generations w)))%nat
  /\ (length (generations w) <= length (generations w'))%nat.
Proof.
  intros w'. subst w'. unfold summarize_text.
  destruct (key_available (OPENAI_API_KEY env)); simpl; [|auto].
  destruct (String.eqb text "" || _); simpl; [auto|].
  assert (forall p, length (generations w ++ [p]) = S (length (generations w)))
    as Hlen by (intros p; rewrite length_app; simpl; lia).
  destruct (chat_completion env w _) as [e|[summary_text|]]; simpl;
    try (rewrite Hlen; split; [reflexivity | lia]).
  destruct (String.eqb summary_text "" || _); simpl;
    rewrite Hlen; split; (reflexivity || lia).
Qed.

Lemma process_podcast_calls (env : Env) (podcast : CandidateItem) (w : World) :
  forall entry ok w', process_podcast env podcast w = (entry, ok, w') ->
  (length (transcriptions w) + (if ok then 1 else 0)
   <= length (transcriptions w'))%nat
  /\ (length (transcriptions w') <= S (length (transcriptions w)))%nat
  /\ (length (generations w')
      <= length (generations w) + (if ok then 1 else 0))%nat.
Proof.
  intros entry ok w'. unfold process_podcast.
  pose proof (download_audio_effects env (c_video_url podcast) w)
    as (_ & _ & _ & Hdt & Hdg).
  destruct (download_audio env (c_video_url podcast) w) as [[e|audio_path] w1];
    simpl in Hdt, Hdg.
  { intros [= <- <- <-]. rewrite Hdt, Hdg. lia. }
  pose proof (transcribe_audio_calls env audio_path w1) as [Htt Hok].
  pose proof (transcribe_audio_log env audio_path w1) as [_ Htg].
  destruct (transcribe_audio env audio_path w1) as [[e|transcription] w2];
    simpl in Htt, Hok, Htg.
  { intros [= <- <- <-]. rewrite Htg, Hdg, <- Hdt.
    destruct Htt as [-> | ->]; [|rewrite length_app; simpl]; lia. }
  pose proof (summarize_text_calls env transcription w2) as (Hst & Hsg & _).
  destruct (summarize_text env transcription w2) as [summary_text w3].
  simpl in Hst, Hsg.
  intros [= <- <- <-]. rewrite Hst, (Hok transcription eq_refl), length_app.
  rewrite <- Hdt, <- Hdg, <- Htg. simpl. lia.
Qed.

Lemma process_loop_calls (env : Env) (podcasts : list CandidateItem) :
  forall c acc w acc' c' w',
  process_loop env podcasts c acc w = (acc', c', w') ->
  (length (generations w') + c <= length (generations w) + c')%nat
  /\ (length (transcriptions w) + c' <= length (transcriptions w') + c)%nat
  /\ (length (transcriptions w') + length acc
      <= length (transcriptions w) + length acc')%nat
  /\ (c <= c')%nat.
Proof.
  induction podcasts as [|podcast podcasts IH]; intros c acc w acc' c' w' Hrun.
  - injection Hrun as <- <- <-. lia.
  - rewrite process_loop_cons in Hrun.
    destruct (max_videos_to_process <=? c)%nat.
    + injection Hrun as <- <- <-. lia.
    + destruct (process_podcast env podcast w) as [[entry ok] w1] eqn:Hitem.
      apply process_podcast_calls in Hitem as (H1 & H2 & H3).
      apply IH in Hrun as (G1 & G2 & G3 & G4).
      rewrite length_app in G3. simpl in G3.
      destruct ok; lia.
Qed.

Lemma get_last_month_youtube_podcasts_world (env : Env) (q : string) (n : Z)
    (w : World) :
  (get_last_month_youtube_podcasts env q n w).2 = w
  \/ (key_available (YOUTUBE_API_KEY env) = true
      /\ (get_last_month_youtube_podcasts env q n w).2 = log_search q w).
Proof.
  unfold get_last_month_youtube_podcasts.
  destruct (key_available (YOUTUBE_API_KEY env)); simpl; [right | now left].
  split; [reflexivity|]. destruct (youtube_search env w q n); reflexivity.
Qed.

(** A request either leaves the world as it was, or makes one search and
    then, when there are candidates, runs the loop on them. *)
Lemma daily_digest_world (env : Env) (req : get_json_result) (w : World) :
  (entries_of (daily_digest env req w).1 = [] /\ (daily_digest env req w).2 = w)
  \/ exists q podcasts w1,
       (w1 = w
        \/ (key_available (YOUTUBE_API_KEY env) = true /\ w1 = log_search q w))
       /\ get_last_month_youtube_podcasts env q 5 w = (podcasts, w1)
       /\ ((podcasts = []
            /\ daily_digest env req w = (empty_array, w1))
           \/ daily_digest env req w
              = (mkResponse 200
                   (EntryArray (process_loop env podcasts 0 [] w1).1.1),
                 (process_loop env podcasts 0 [] w1).2)).
Proof.
  unfold daily_digest.
  destruct req as [e|data]; [left; auto|].
  destruct (Py.truthy data); simpl negb; cbv iota; [|left; auto].
  destruct (Py.get data "category" _) as [e|category]; [left; auto|].
  destruct (companies_of data) as [e|v]; [left; auto|].
  destruct v as [| | | |l|]; try (left; split; reflexivity).
  destruct l as [|company others]; [left; auto|].
  right.
  set (q := search_keywords env category (company :: others)).
  pose proof (get_last_month_youtube_podcasts_world env q 5 w) as Hw.
  destruct (get_last_month_youtube_podcasts env q 5 w) as [podcasts w1] eqn:Hget.
  simpl in Hw. exists q, podcasts, w1.
  split; [exact Hw|]. split; [exact Hget|].
  destruct podcasts as [|podcast podcasts]; [left; auto|].
  right. cbv beta iota.
  destruct (process_loop env (podcast :: podcasts) 0 [] w1) as [[s c] w2].
  reflexivity.
Qed.

(** X9: handling one request costs at most 3 calls of the generation
    service, one for each entry without error at most; every entry without
    error stands for one transcription call, and there are no more
    transcription calls than entries. *)
Theorem request_call_budget (env : Env) (req : get_json_result) (w : World) :
  let r := daily_digest env req w in
  let entries := entries_of r.1 in
  (length (generations r.2) <= length (generations w) + successes entries)%nat
  /\ (length (generations r.2) <= length (generations w) + 3)%nat
  /\ (length (transcriptions w) + successes entries
      <= length (transcriptions r.2))%nat
  /\ (length (transcriptions r.2)
      <= length (transcriptions w) + length entries)%nat.
Proof.
  intros r entries. subst r entries.
  destruct (daily_digest_world env req w)
    as [[He ->]|(q & podcasts & w1 & Hw1 & _ & [[_ ->]| ->])].
  - rewrite He. unfold successes. simpl. lia.
  - unfold successes. simpl.
    destruct Hw1 as [-> | [_ ->]]; simpl; lia.
  - destruct (process_loop env podcasts 0 [] w1) as [[s c] w2] eqn:Hrun.
    pose proof (process_loop_calls _ _ _ _ _ _ _ _ Hrun) as (G1 & G2 & G3 & _).
    apply process_loop_run in Hrun as (rest & _ & Hc & _ & _ & Hstart).
    apply successes_le_cap in Hstart.
    unfold entries_of, max_videos_to_process in *. simpl in *.
    assert (generations w1 = generations w /\ transcriptions w1 = transcriptions w)
      as [Hg Ht] by (destruct Hw1 as [-> | [_ ->]]; auto).
    apply (f_equal (@length _)) in Hg, Ht. lia.
Qed.

(** ** Without the OpenAI credential *)

Lemma process_podcast_no_key (env : Env) (podcast : CandidateItem) (w : World) :
  key_available (OPENAI_API_KEY env) = false ->
  forall entry ok w', process_podcast env podcast w = (entry, ok, w') ->
  ok = false
  /\ transcriptions w' = transcriptions w
  /\ generations w' = generations w.
Proof.
  intros Hkey entry ok w'. unfold process_podcast.
  pose proof (download_audio_effects env (c_video_url podcast) w)
    as (_ & _ & _ & Hdt & Hdg).
  destruct (download_audio env (c_video_url podcast) w) as [[e|audio_path] w1];
    simpl in Hdt, Hdg.
  - intros [= <- <- <-]. simpl. auto.
  - unfold transcribe_audio. rewrite Hkey. simpl.
    intros [= <- <- <-]. simpl. auto.
Qed.

Lemma process_loop_no_key (env : Env) (podcasts : list CandidateItem) :
  key_available (OPENAI_API_KEY env) = false ->
  forall c acc w acc' c' w',
  (c < max_videos_to_process)%nat ->
  process_loop env podcasts c acc w = (acc', c', w') ->
  c' = c
  /\ transcriptions w' = transcriptions w
  /\ generations w' = generations w
  /\ exists new,
       acc' = (acc ++ new)%list
       /\ map item_of new = podcasts
       /\ Forall (fun e => succeeded e = false) new.
Proof.
  intros Hkey.
  induction podcasts as [|podcast podcasts IH]; intros c acc w acc' c' w' Hc Hrun.
  - injection Hrun as <- <- <-. repeat split. exists [].
    now rewrite app_nil_r.
  - rewrite process_loop_cons in Hrun.
    destruct (Nat.leb_spec max_videos_to_process c); [lia|].
    destruct (process_podcast env podcast w) as [[entry ok] w1] eqn:Hitem.
    pose proof (process_podcast_no_key env podcast w Hkey _ _ _ Hitem)
      as (-> & Ht & Hg).
    apply process_podcast_entry in Hitem as (Hi & Hs & _).
    apply IH in Hrun as (-> & Ht' & Hg' & new & -> & Hm & Hall); [|exact Hc].
    repeat split; [congruence | congruence |].
    exists (entry :: new). rewrite <- app_assoc. simpl.
    repeat split; [now rewrite Hi, Hm | now constructor].
Qed.

(** X10: when [OPENAI_API_KEY] is unset or empty no item can succeed:
    the loop attempts every candidate, each entry has an [error] field, the
    counter stays at 0, and neither the transcription nor the generation
    service is called. *)
Theorem loop_without_openai_key (env : Env) (podcasts : list CandidateItem)
    (w : World) :
  key_available (OPENAI_API_KEY env) = false ->
  let r := process_loop env podcasts 0 [] w in
  r.1.2 = 0%nat
  /\ map item_of r.1.1 = podcasts
  /\ Forall (fun e => succeeded e = false) r.1.1
  /\ transcriptions r.2 = transcriptions w
  /\ generations r.2 = generations w.
Proof.
  intros Hkey r. subst r.
  destruct (process_loop env podcasts 0 [] w) as [[s c] w'] eqn:Hrun.
  apply (process_loop_no_key env podcasts Hkey) in Hrun
    as (-> & Ht & Hg & new & -> & Hm & Hall);
    [|unfold max_videos_to_process; lia].
  simpl. auto.
Qed.

Lemma loop_without_openai_key_witness :
  let env := Sample.sample_env None true true true 5000 in
  let r := process_loop env Sample.five 0 [] Sample.w0 in
  map item_of r.1.1 = Sample.five /\ transcriptions r.2 = [].
Proof.
  intros env r.
  destruct (loop_without_openai_key env Sample.five Sample.w0 eq_refl)
    as (_ & Hm & _ & Ht & _).
  split; [exact Hm | exact Ht].
Defined.

(** ** The request body *)

(** X11: a non-empty string given as [company] is treated as the list
    holding that string: the two bodies get the same response and cause the
    same calls. *)
Theorem string_company_is_singleton (env : Env) (s : string)
    (rest : list (string * Py.json)) (w : World) :
  s <> "" ->
  daily_digest env (JsonValue (Py.JDict (("company", Py.JStr s) :: rest))) w
  = daily_digest env
      (JsonValue (Py.JDict (("company", Py.JList [Py.JStr s]) :: rest))) w.
Proof.
  intros Hs. unfold daily_digest. simpl Py.truthy. simpl negb. cbv iota.
  rewrite !get_dict.
  change (Py.dict_get "category" (("company", Py.JStr s) :: rest))
    with (Py.dict_get "category" rest).
  change (Py.dict_get "category" (("company", Py.JList [Py.JStr s]) :: rest))
    with (Py.dict_get "category" rest).
  assert (H1 : companies_of (Py.JDict (("company", Py.JStr s) :: rest))
               = inr (Py.JList [Py.JStr s])).
  { rewrite (companies_of_truthy _ (Py.JStr s)); [reflexivity | reflexivity |].
    simpl. now destruct (String.eqb_spec s ""). }
  assert (H2 : companies_of (Py.JDict (("company", Py.JList [Py.JStr s]) :: rest))
               = inr (Py.JList [Py.JStr s])).
  { now rewrite (companies_of_truthy _ (Py.JList [Py.JStr s])). }
  now rewrite H1, H2.
Qed.

Lemma string_company_is_singleton_witness :
  let env := Sample.sample_env (Some "sk-key") true true true 5000 in
  daily_digest env (JsonValue (Py.JDict [("company", Py.JStr "Maersk")])) Sample.w0
  = daily_digest env
      (JsonValue (Py.JDict [("company", Py.JList [Py.JStr "Maersk"])])) Sample.w0.
Proof.
  intros env.
  apply (string_company_is_singleton env "Maersk" [] Sample.w0). discriminate.
Defined.

(** ** Bounds and side effects of a request *)

Lemma get_last_month_youtube_podcasts_length (env : Env) (q : string) (n : Z)
    (w : World) (bound : nat) :
  (forall items, youtube_search env w q n = inr items ->
     (length items <= bound)%nat) ->
  (length (get_last_month_youtube_podcasts env q n w).1 <= bound)%nat.
Proof.
  intros H. unfold get_last_month_youtube_podcasts.
  destruct (key_available (YOUTUBE_API_KEY env)); simpl; [|lia].
  destruct (youtube_search env w q n) as [e|items]; simpl; [lia|].
  pose proof (to_podcasts_length items). specialize (H items eq_refl). lia.
Qed.

(** X12: the handler asks for 5 results; when the search service honours
    that limit, a response has at most 5 entries and the request makes at
    most 5 downloads. *)
Theorem request_bounded_by_max_results (env : Env) (req : get_json_result)
    (w : World) :
  (forall q items, youtube_search env w q 5 = inr items ->
     (length items <= 5)%nat) ->
  let r := daily_digest env req w in
  (length (entries_of r.1) <= 5)%nat
  /\ (length (downloads r.2) <= length (downloads w) + 5)%nat.
Proof.
  intros Hlimit r. subst r.
  assert (Hentries : (length (entries_of (daily_digest env req w).1) <= 5)%nat).
  { destruct (daily_digest_world env req w)
      as [[He _]|(q & podcasts & w1 & _ & Hget & [[_ ->]| ->])].
    - rewrite He. simpl. lia.
    - simpl. lia.
    - pose proof (get_last_month_youtube_podcasts_length env q 5 w 5 (Hlimit q))
        as Hlen.
      rewrite Hget in Hlen. simpl in Hlen.
      destruct (process_loop env podcasts 0 [] w1) as [[s c] w2] eqn:Hrun.
      apply process_loop_run in Hrun as (rest & Hp & _).
      unfold entries_of. simpl.
      rewrite Hp, length_app, length_map in Hlen. lia. }
  split; [exact Hentries|].
  pose proof (daily_digest_downloads env req w) as Hd. simpl in Hd.
  rewrite Hd, length_app, length_map. lia.
Qed.

Lemma request_bounded_by_max_results_witness :
  let env := Sample.sample_env (Some "sk-key") false true true 5000 in
  let r := daily_digest env
             (JsonValue (Py.JDict [("category", Py.JStr "shipping")])) Sample.w0 in
  (length (entries_of r.1) <= 5)%nat.
Proof.
  intros env r.
  apply (request_bounded_by_max_results env
           (JsonValue (Py.JDict [("category", Py.JStr "shipping")])) Sample.w0).
  intros q items [= <-]. vm_compute. lia.
Defined.

(** X13: a request makes at most one search, and a request answered with
    status 400 makes no call at all and leaves the scratch directory as it
    was. *)
Theorem request_side_effects (env : Env) (req : get_json_result) (w : World) :
  let r := daily_digest env req w in
  (searches r.2 = searches w
   \/ exists q, searches r.2 = (searches w ++ [q])%list)
  /\ (status r.1 = 400 -> r.2 = w).
Proof.
  intros r. subst r. split.
  - destruct (daily_digest_world env req w)
      as [[_ ->]|(q & podcasts & w1 & Hw1 & _ & [[_ ->]| ->])].
    + now left.
    + destruct Hw1 as [-> | [_ ->]]; simpl; eauto.
    + cbn [snd]. rewrite process_loop_searches.
      destruct Hw1 as [-> | [_ ->]]; simpl; eauto.
  - destruct (daily_digest_cases env req w)
      as [(e & -> & ->)
         |[(data & -> & Ht & ->)
          |[(data & e & -> & Ht & Hc & ->)
           |[(data & v & -> & Ht & Hc & Hne & ->)
            |(data & category & company & others & -> & _ & _ & _ & Hst & _)]]]];
      [simpl; intros H; reflexivity .. | ].
    intros H. rewrite Hst in H. discriminate H.
Qed.

Lemma request_side_effects_witness :
  let env := Sample.sample_env (Some "sk-key") true true true 5000 in
  (daily_digest env (JsonValue (Py.JDict [("company", Py.JNum 7)])) Sample.w0).2
  = Sample.w0.
Proof.
  intros env.
  destruct (request_side_effects env
              (JsonValue (Py.JDict [("company", Py.JNum 7)])) Sample.w0)
    as (_ & H).
  apply H. reflexivity.
Defined.

(** ** [health_check] and the pipeline *)

Lemma key_available_iff (k : option string) :
  key_available k = true <-> exists s, k = Some s /\ s <> "".
Proof.
  destruct k as [s|]; simpl.
  - destruct (String.eqb_spec s ""); simpl; split.
    + discriminate.
    + intros (s' & [= <-] & Hne). contradiction.
    + eauto.
    + reflexivity.
  - split; [discriminate | intros (s & [=] & _)].
Qed.

(** X14: [health_check] answers 200 with status [healthy] and two flags;
    each flag is true exactly when its credential is set and not empty.
    What it reports tells what [daily_digest] can do: when
    [youtube_key_available] is false every request ends without entries and
    without any call, and when [openai_key_available] is false no response
    has an entry without [error] and no generation call is made. *)
Theorem health_check_predicts_digest (env : Env) :
  (health_check env).1 = 200
  /\ h_status (health_check env).2 = "healthy"
  /\ (openai_key_available (health_check env).2 = true <->
      exists s, OPENAI_API_KEY env = Some s /\ s <> "")
  /\ (youtube_key_available (health_check env).2 = true <->
      exists s, YOUTUBE_API_KEY env = Some s /\ s <> "")
  /\ (youtube_key_available (health_check env).2 = false ->
      forall req w,
        entries_of (daily_digest env req w).1 = []
        /\ (daily_digest env req w).2 = w)
  /\ (openai_key_available (health_check env).2 = false ->
      forall req w,
        Forall (fun e => succeeded e = false)
          (entries_of (daily_digest env req w).1)
        /\ generations (daily_digest env req w).2 = generations w).
Proof.
  split; [reflexivity|]. split; [reflexivity|].
  split; [apply key_available_iff|]. split; [apply key_available_iff|].
  split.
  - simpl. intros Hkey req w.
    destruct (daily_digest_world env req w)
      as [[He ->]|(q & podcasts & w1 & Hw1 & Hget & Hrun)]; [auto|].
    assert (podcasts = [] /\ w1 = w) as [-> ->].
    { unfold get_last_month_youtube_podcasts in Hget. rewrite Hkey in Hget.
      simpl in Hget. injection Hget as <- <-. auto. }
    destruct Hrun as [[_ ->]| ->]; simpl; auto.
  - simpl. intros Hkey req w.
    destruct (daily_digest_world env req w)
      as [[He ->]|(q & podcasts & w1 & Hw1 & _ & [[_ ->]| ->])].
    + rewrite He. auto.
    + simpl. split; [constructor|]. destruct Hw1 as [-> | [_ ->]]; reflexivity.
    + destruct (process_loop env podcasts 0 [] w1) as [[s c] w2] eqn:Hrun.
      apply (process_loop_no_key env podcasts Hkey) in Hrun
        as (_ & _ & Hg & new & -> & _ & Hall);
        [|unfold max_videos_to_process; lia].
      unfold entries_of. simpl. split; [exact Hall|].
      rewrite Hg. destruct Hw1 as [-> | [_ ->]]; reflexivity.
Qed.

Lemma health_check_predicts_digest_witness :
  let env := mkEnv (Some "sk-key") None (fun _ => "?") (fun _ => "id")
               (fun _ _ _ => inl "no key") (fun w _ _ => (files w, inl "x"))
               (fun _ _ => inl "x") (fun _ _ => inl "x") (fun _ _ => true) in
  openai_key_available (health_check env).2 = true
  /\ (daily_digest env (JsonValue (Py.JDict [("category", Py.JStr "ports")]))
        Sample.w0).2 = Sample.w0.
Proof.
  intros env.
  destruct (health_check_predicts_digest env) as (_ & _ & Ho & _ & H & _).
  split.
  - apply Ho. exists "sk-key". split; [reflexivity | discriminate].
  - apply (H eq_refl).
Defined.

(** ** The file of a successful item *)

Lemma transcribe_audio_success_removes (env : Env) (path text : string)
    (w : World) :
  (transcribe_audio env path w).1 = inr text ->
  os_remove env (log_transcription path w) path = true ->
  files (transcribe_audio env path w).2 !! path = None.
Proof.
  unfold transcribe_audio.
  destruct (key_available (OPENAI_API_KEY env)); simpl; [|discriminate].
  destruct (files w !! path) as [file_size|] eqn:Hf; simpl; [|discriminate].
  destruct (size_gate file_size); simpl; [discriminate|].
  intros _ Hrm. unfold cleanup. simpl. rewrite Hf, Hrm. simpl.
  apply lookup_delete_eq.
Qed.

Lemma summarize_text_files (env : Env) (text : string) (w : World) :
  files (summarize_text env text w).2 = files w.
Proof.
  unfold summarize_text.
  destruct (key_available (OPENAI_API_KEY env)); simpl; [|reflexivity].
  destruct (String.eqb text "" || _); simpl; [reflexivity|].
  destruct (chat_completion env w _) as [e|[summary_text|]]; simpl;
    try reflexivity.
  destruct (String.eqb summary_text "" || _); reflexivity.
Qed.

(** X15: when an item is processed without error and [os.remove] works,
    the audio file that was downloaded for it is no longer in the scratch
    directory when the item completes. *)
Theorem successful_item_leaves_no_file (env : Env) (podcast : CandidateItem)
    (w : World) :
  (forall w0 path, os_remove env w0 path = true) ->
  forall entry w', process_podcast env podcast w = (entry, true, w') ->
  exists audio_path,
    (download_audio env (c_video_url podcast) w).1 = inr audio_path
    /\ files w' !! audio_path = None.
Proof.
  intros Hrm entry w'. unfold process_podcast.
  destruct (download_audio env (c_video_url podcast) w) as [[e|audio_path] w1];
    [intros [=]|].
  pose proof (fun text => transcribe_audio_success_removes env audio_path text w1)
    as Hgone.
  destruct (transcribe_audio env audio_path w1) as [[e|transcription] w2];
    [intros [=]|].
  pose proof (summarize_text_files env transcription w2) as Hs.
  destruct (summarize_text env transcription w2) as [summary_text w3].
  intros [= <- <-]. exists audio_path. split; [reflexivity|].
  simpl in Hs. rewrite Hs.
  apply (Hgone transcription eq_refl). apply Hrm.
Qed.

Lemma successful_item_leaves_no_file_witness :
  let env := Sample.sample_env (Some "sk-key") true true true 5000 in
  exists audio_path,
    (download_audio env (c_video_url Sample.podcast1) Sample.w0).1 = inr audio_path
    /\ files (process_podcast env Sample.podcast1 Sample.w0).2 !! audio_path = None.
Proof.
  intros env.
  apply (successful_item_leaves_no_file env Sample.podcast1 Sample.w0
           (fun _ _ => eq_refl)
           (process_podcast env Sample.podcast1 Sample.w0).1.1).
  vm_compute. reflexivity.
Defined.
